(** * generate_deployments_json: a shallow embedding and its properties

    The script walks a SOA configuration directory, collects for every
    service the branches named by its [marathon-*.yaml] files, asks the
    service's git remote for its heads and maps
    ["service:branch"] to ["service:" ++ first six characters of the SHA].

    The file system, the YAML reader and the git client are outside the
    script; they are gathered in a record [World] of functions.  Every
    effect of the script that can be observed from outside (a call to the
    logger, a configuration file handed to the reader, a remote query) is
    recorded in a trace, and a raised exception is a value of [result]. *)

From Stdlib Require Import String Ascii ZArith List Bool.
From stdpp Require Import gmap strings list fin_maps.

Local Open Scope string_scope.

(** ** Python primitives *)

Module Py.

(** Exceptions that can travel through the script. [ExternalError] stands
    for whatever else a collaborator raises (a YAML parse error, ...). *)
Inductive exn : Type :=
| IndexError
| TypeError
| KeyError
| OSError
| StopIteration
| GitCommandError
| ExternalError (what : string).

Inductive result (A : Type) : Type :=
| Ok (a : A)
| Raise (e : exn).
Arguments Ok {A} a.
Arguments Raise {A} e.

Definition rbind {A B} (r : result A) (k : A → result B) : result B :=
  match r with
  | Ok a => k a
  | Raise e => Raise e
  end.

(** [xs[i]] for a non-negative literal index. *)
Definition index {A} (xs : list A) (i : nat) : result A :=
  match nth_error xs i with
  | Some x => Ok x
  | None => Raise IndexError
  end.

(** [sub in s] on strings. *)
Fixpoint str_in (sub s : string) : bool :=
  String.prefix sub s ||
  match s with
  | EmptyString => false
  | String _ s' => str_in sub s'
  end.

(** [s.split(sep)] for a non-empty separator: the scan goes left to
    right; [skip] counts the characters of a separator just matched that
    are still to be passed over, [cur] is the piece being built. *)
Fixpoint split_from (sep : string) (skip : nat) (cur s : string) : list string :=
  match s with
  | EmptyString => [cur]
  | String c s' =>
      match skip with
      | S k => split_from sep k cur s'
      | O =>
          if String.prefix sep s
          then cur :: split_from sep (String.length sep - 1) "" s'
          else split_from sep 0 (cur +:+ String c "") s'
      end
  end.

Definition split (s sep : string) : list string := split_from sep 0 "" s.

(** [s[0:n]]. *)
Fixpoint slice_to (n : nat) (s : string) : string :=
  match n, s with
  | S n', String c s' => String c (slice_to n' s')
  | _, _ => ""
  end.

(** [s.startswith(p)] and [s.endswith("/")], for [os.path.join]. *)
Definition startswith (s p : string) : bool := String.prefix p s.

Fixpoint ends_with_slash (s : string) : bool :=
  match s with
  | EmptyString => false
  | String c EmptyString => Ascii.eqb c "/"
  | String _ s' => ends_with_slash s'
  end.

(** [os.path.join(a, b)] of posixpath. *)
Definition path_join (a b : string) : string :=
  if startswith b "/" then b
  else if String.eqb a "" || ends_with_slash a then a +:+ b
  else a +:+ "/" +:+ b.

(** Values a YAML document loads to: null, booleans, integers, strings,
    sequences and mappings (a mapping is the list of its items). *)
#[warnings="-register-all"] Inductive pyval : Type :=
| PNone
| PBool (b : bool)
| PInt (n : Z)
| PStr (s : string)
| PList (xs : list pyval)
| PDict (items : list (pyval * pyval)).

Definition is_str (k : string) (v : pyval) : bool :=
  match v with
  | PStr s => String.eqb k s
  | _ => false
  end.

(** [k in v] for a string [k]: key test on a mapping, element test on a
    sequence, substring test on a string, [TypeError] otherwise. *)
Definition contains (k : string) (v : pyval) : result bool :=
  match v with
  | PDict items => Ok (existsb (λ kv, is_str k kv.1) items)
  | PList xs => Ok (existsb (is_str k) xs)
  | PStr s => Ok (str_in k s)
  | PNone | PBool _ | PInt _ => Raise TypeError
  end.

(** [v[k]] for a string [k]. *)
Definition getitem (v : pyval) (k : string) : result pyval :=
  match v with
  | PDict items =>
      match find (λ kv, is_str k kv.1) items with
      | Some kv => Ok kv.2
      | None => Raise KeyError
      end
  | _ => Raise TypeError
  end.

(** Truth value of [if v:]. *)
Definition truthy (v : pyval) : bool :=
  match v with
  | PNone => false
  | PBool b => b
  | PInt n => negb (Z.eqb n 0)
  | PStr s => negb (String.eqb s "")
  | PList xs => match xs with [] => false | _ => true end
  | PDict items => match items with [] => false | _ => true end
  end.

(** Elements of a Python set, up to Python's equality: [True == 1] and
    [False == 0], so booleans are stored as the integers they equal. *)
Inductive hkey : Type :=
| KNone
| KInt (n : Z)
| KStr (s : string).

#[global] Instance hkey_eq_dec : EqDecision hkey.
Proof. solve_decision. Defined.

Definition hkey_enc (k : hkey) : unit + (Z + string) :=
  match k with
  | KNone => inl ()
  | KInt n => inr (inl n)
  | KStr s => inr (inr s)
  end.

Definition hkey_dec (x : unit + (Z + string)) : hkey :=
  match x with
  | inl _ => KNone
  | inr (inl n) => KInt n
  | inr (inr s) => KStr s
  end.

#[global] Instance hkey_countable : Countable hkey.
Proof. apply (inj_countable' hkey_enc hkey_dec). by intros []. Defined.

(** [hash(v)]: sequences and mappings are unhashable. *)
Definition hash_key (v : pyval) : result hkey :=
  match v with
  | PNone => Ok KNone
  | PBool b => Ok (KInt (Z.b2z b))
  | PInt n => Ok (KInt n)
  | PStr s => Ok (KStr s)
  | PList _ | PDict _ => Raise TypeError
  end.

(** [s.add(v)]. *)
Definition set_add (s : gset hkey) (v : pyval) : result (gset hkey) :=
  rbind (hash_key v) (λ k, Ok ({[k]} ∪ s)).

End Py.
Import Py.

(** Tab and newline, the separators of [git ls-remote]'s output. *)
Definition TAB : string := String (ascii_of_nat 9) "".
Definition NL : string := String (ascii_of_nat 10) "".

Notation "'let?' x ':=' r 'in' k" := (rbind r (λ x, k))
  (at level 10, x pattern, r at level 100, k at level 200).

(** [for x in xs: s = body(s, x)], stopping at the first exception. *)
Fixpoint for_each {A S} (body : S → A → result S) (xs : list A) (s : S) : result S :=
  match xs with
  | [] => Ok s
  | x :: xs' => let? s' := body s x in for_each body xs' s'
  end.

(** A list comprehension [[f(x) for x in xs]]. *)
Fixpoint comprehension {A B} (f : A → result B) (xs : list A) : result (list B) :=
  match xs with
  | [] => Ok []
  | x :: xs' => let? y := f x in let? ys := comprehension f xs' in Ok (y :: ys)
  end.

(** ** Observable effects *)

Inductive level : Type := INFO | WARNING | ERROR.

(** A call [log.<level>(fmt, *args)] keeps its format string and its
    arguments apart, as the logging module does. *)
Inductive event : Type :=
| Log (lvl : level) (fmt : string) (args : list string)
| ReadConfig (path : string)
| LsRemote (url : string).

(** A computation yields the events it caused, in order, and a value or
    the exception that ended it. *)
Definition M (A : Type) : Type := list event * result A.

Definition ret {A} (a : A) : M A := ([], Ok a).

Definition bind {A B} (m : M A) (k : A → M B) : M B :=
  match m with
  | (t, Ok a) => let (t', r) := k a in ((t ++ t')%list, r)
  | (t, Raise e) => (t, Raise e)
  end.

Definition lift {A} (r : result A) : M A := ([], r).

Definition emit (e : event) : M unit := ([e], Ok ()).

Definition log (lvl : level) (fmt : string) (args : list string) : M unit :=
  emit (Log lvl fmt args).

(** [try: body / except <caught>: handler]. *)
Definition try_except {A} (body : M A) (caught : exn → bool) (handler : M A) : M A :=
  match body with
  | (t, Raise e) =>
      if caught e then let (t', r) := handler in ((t ++ t')%list, r) else (t, Raise e)
  | (t, Ok a) => (t, Ok a)
  end.

Notation "'let*' x ':=' m 'in' k" := (bind m (λ x, k))
  (at level 10, x pattern, m at level 100, k at level 200).
Notation "m ';;;' k" := (bind m (λ _, k))
  (at level 100, k at level 200, right associativity).

Fixpoint for_eachM {A S} (body : S → A → M S) (xs : list A) (s : S) : M S :=
  match xs with
  | [] => ret s
  | x :: xs' => let* s' := body s x in for_eachM body xs' s'
  end.

(** ** The collaborators of the script *)

Record World : Type := {
  (** [tempfile.mkdtemp()] *)
  mkdtemp : result string;
  (** [os.rmdir(path)] *)
  os_rmdir : string → result unit;
  (** [os.walk(top).next()]: the triple (top, dirs, files) *)
  os_walk_next : string → result (string * list string * list string);
  (** [os.listdir(path)] *)
  os_listdir : string → result (list string);
  (** [service_configuration_lib.read_service_information(path)]: a mapping
      from instance names to whatever the YAML document holds for them *)
  read_service_information : string → result (gmap string pyval);
  (** [git.Git(working_dir).ls_remote(flag, url)] *)
  ls_remote : string → string → string → result string;
}.

(** ** The script *)

Section Script.

Variable W : World.

Definition get_git_url (service : string) : string :=
  "git@git.yelpcorp.com:services/" +:+ service +:+ ".git".

(** [filename.split('-')[1].split('.')[0]] *)
Definition filename_branch (filename : string) : result string :=
  let? rest := index (split filename "-") 1 in
  index (split rest ".") 0.

(** The value of [target_branch] once the [if]/[elif] of the loop body has
    run for the instance record [inst] (that is, [config[instance]]). *)
Definition target_branch (filename : string) (inst : pyval) : result pyval :=
  let? has_branch := contains "branch" inst in
  if has_branch then getitem inst "branch"
  else
    let? has_image := contains "docker_image" inst in
    if negb has_image then
      match filename_branch filename with
      | Ok b => Ok (PStr b)
      | Raise IndexError => Ok PNone
      | Raise e => Raise e
      end
    else Ok PNone.

(** One turn of [for instance in config]. *)
Definition add_instance (filename : string) (valid_branches : gset hkey)
    (item : string * pyval) : result (gset hkey) :=
  let? tb := target_branch filename item.2 in
  if truthy tb then set_add valid_branches tb else Ok valid_branches.

(** The dictionary is walked in the order of [map_to_list], each instance
    name paired with [config[instance]]. *)
Definition get_branches_from_marathon_file (file_dir filename : string) : M (gset hkey) :=
  let path := path_join file_dir filename in
  emit (ReadConfig path) ;;;
  let* config := lift (read_service_information W path) in
  lift (for_each (add_instance filename) (map_to_list config) ∅).

Definition add_file (working_dir : string) (valid_branches : gset hkey)
    (fname : string) : M (gset hkey) :=
  if str_in "marathon-" fname then
    let* bs := get_branches_from_marathon_file working_dir fname in
    ret (valid_branches ∪ bs)
  else ret valid_branches.

Definition get_branches_for_service (soa_dir service : string) : M (gset hkey) :=
  let working_dir := path_join soa_dir service in
  let* fnames := lift (os_listdir W working_dir) in
  for_eachM (add_file working_dir) fnames ∅.

(** [(branch.split('\t')[0], branch.split('\t')[1].split('refs/heads/')[1])] *)
Definition parse_branch (branch : string) : result (string * string) :=
  let? head := index (split branch TAB) 0 in
  let? ref := index (split branch TAB) 1 in
  let? name := index (split ref "refs/heads/") 1 in
  Ok (head, name).

Definition is_git_command_error (e : exn) : bool :=
  match e with
  | GitCommandError => true
  | _ => false
  end.

Definition get_remote_branches_for_service (mygit service : string)
    : M (list (string * string)) :=
  try_except
    (let git_url := get_git_url service in
     emit (LsRemote git_url) ;;;
     let* out := lift (ls_remote W mygit "-h" git_url) in
     let branches := split out NL in
     lift (comprehension parse_branch branches))
    is_git_command_error
    (log WARNING "Service %s has branches, but the remote git repo is not named %s"
         [service; service] ;;;
     ret []).

Definition get_service_directories (soa_dir : string) : result (list string) :=
  let? top_dirs_files := os_walk_next W soa_dir in
  Ok top_dirs_files.1.2.

(** One turn of the inner loop of [get_branch_mappings]. *)
Definition add_mapping (service : string) (mappings : gmap string string)
    (hb : string * string) : M (gmap string string) :=
  let branch_alias := service +:+ ":" +:+ hb.2 in
  let docker_image := service +:+ ":" +:+ slice_to 6 hb.1 in
  log INFO "Mapping branch %s to docker image %s" [branch_alias; docker_image] ;;;
  ret (<[branch_alias := docker_image]> mappings).

(** One turn of [for service in get_service_directories(soa_dir)]. *)
Definition examine_service (soa_dir mygit : string) (mappings : gmap string string)
    (service : string) : M (gmap string string) :=
  log INFO "Examining service %s" [service] ;;;
  let* valid_branches := get_branches_for_service soa_dir service in
  if bool_decide (valid_branches = ∅) then
    log INFO "Service %s has no branches." [service] ;;;
    ret mappings
  else
    let* remote_branches := get_remote_branches_for_service mygit service in
    for_eachM (add_mapping service)
      (filter (λ hb, KStr hb.2 ∈ valid_branches) remote_branches) mappings.

Definition get_branch_mappings (soa_dir : string) : M (gmap string string) :=
  let* tmp_dir := lift (mkdtemp W) in
  let mygit := tmp_dir in
  let* services := lift (get_service_directories soa_dir) in
  let* mappings := for_eachM (examine_service soa_dir mygit) services ∅ in
  match os_rmdir W tmp_dir with
  | Raise OSError =>
      log ERROR "Failed to remove temporary directory %s" [tmp_dir]
  | r => lift r
  end ;;;
  ret mappings.

End Script.

(** ** Vocabulary of the statements *)

(** The piece of [s] before the first occurrence of the character [c]. *)
Fixpoint upto (c : ascii) (s : string) : string :=
  match s with
  | EmptyString => ""
  | String d s' => if Ascii.eqb c d then "" else String d (upto c s')
  end.

Definition mapping_format : string := "Mapping branch %s to docker image %s".

(** The insertion [mappings[k] = v] that a log call announces. *)
Definition insert_of (e : event) : option (string * string) :=
  match e with
  | Log INFO fmt [k; v] => if String.eqb fmt mapping_format then Some (k, v) else None
  | _ => None
  end.

(** The insertions of a run, oldest first. *)
Definition inserts_of (tr : list event) : list (string * string) := omap insert_of tr.

(** The insertions made under the key [k]. *)
Definition writes_to (k : string) (kvs : list (string * string)) : list (string * string) :=
  filter (λ kv, kv.1 = k) kvs.

(** Replaying insertions on a dictionary. *)
Definition replay (kvs : list (string * string)) (m : gmap string string) : gmap string string :=
  foldl (λ acc kv, <[kv.1 := kv.2]> acc) m kvs.

Definition branch_alias_of (service : string) (hb : string * string) : string :=
  service +:+ ":" +:+ hb.2.

Definition docker_image_of (service : string) (hb : string * string) : string :=
  service +:+ ":" +:+ slice_to 6 hb.1.

Definition entry_of (service : string) (hb : string * string) : string * string :=
  (branch_alias_of service hb, docker_image_of service hb).

Definition mapping_event (service : string) (hb : string * string) : event :=
  Log INFO mapping_format [branch_alias_of service hb; docker_image_of service hb].

Definition is_read (e : event) : bool :=
  match e with
  | ReadConfig _ => true
  | _ => false
  end.

Definition has_key (k : string) (items : list (pyval * pyval)) : bool :=
  existsb (λ kv, is_str k kv.1) items.

Definition is_ok {A} (r : result A) : bool :=
  match r with
  | Ok _ => true
  | Raise _ => false
  end.

(** The reads of a service directory: its files whose name contains
    [marathon-], in listing order. *)
Definition read_events (working_dir : string) (fnames : list string) : list event :=
  map (λ f, ReadConfig (path_join working_dir f))
      (filter (λ f, str_in "marathon-" f = true) fnames).

Definition warning_event (service : string) : event :=
  Log WARNING "Service %s has branches, but the remote git repo is not named %s"
      [service; service].

(** The remote heads that pass the filter of the main loop: those whose
    name is in the set of the service, in listing order. *)
Definition tracked_refs (vb : gset hkey) (refs : list (string * string))
    : list (string * string) :=
  filter (λ hb, KStr hb.2 ∈ vb) refs.

Definition examining_event (service : string) : event :=
  Log INFO "Examining service %s" [service].

Definition no_branches_event (service : string) : event :=
  Log INFO "Service %s has no branches." [service].

Definition rmdir_event (tmp_dir : string) : event :=
  Log ERROR "Failed to remove temporary directory %s" [tmp_dir].

(** The set of branches of a service and the heads of its remote, when
    they can be had. *)
Definition branches_of (W : World) (soa_dir service : string) : result (gset hkey) :=
  (get_branches_for_service W soa_dir service).2.

Definition remote_of (W : World) (mygit service : string) : result (list (string * string)) :=
  (get_remote_branches_for_service W mygit service).2.

(** The entries a service contributes to the dictionary, in the order of
    their insertion. *)
Definition service_entries (W : World) (soa_dir mygit service : string)
    : list (string * string) :=
  match branches_of W soa_dir service, remote_of W mygit service with
  | Ok vb, Ok refs => map (entry_of service) (tracked_refs vb refs)
  | _, _ => []
  end.

(** ** Sample inputs

    A configuration root [/soa] with three services: [svc] follows a
    release branch and the cluster of its file name, [pinned] runs a fixed
    image, and [ghost] has a branch but no repository of its name. *)

Definition demo_config : gmap string pyval :=
  list_to_map
    [("main", PDict [(PStr "branch", PStr "release")]);
     ("canary", PDict [(PStr "instances", PInt 1)]);
     ("legacy", PDict [(PStr "docker_image", PStr "docker-dev.yelpcorp.com/legacy")]);
     ("parked", PDict [(PStr "branch", PNone)])].

Definition demo_listing : string :=
  "abcdef0123456789" +:+ TAB +:+ "refs/heads/release" +:+ NL +:+
  "0123456789abcdef" +:+ TAB +:+ "refs/heads/devc" +:+ NL +:+
  "fedcba9876543210" +:+ TAB +:+ "refs/heads/master".

Definition demo_world : World := {|
  mkdtemp := Ok "/tmp/tmpq1w2e3";
  os_rmdir := λ _, Ok ();
  os_walk_next := λ top, Ok (top, ["svc"; "pinned"; "ghost"], ["deployments.json"]);
  os_listdir := λ d,
    if String.eqb d "/soa/svc" then Ok ["marathon-devc.yaml"; "service.yaml"]
    else if String.eqb d "/soa/pinned" then Ok ["marathon-devc.yaml"]
    else if String.eqb d "/soa/ghost" then Ok ["not-a-marathon-devc.yaml"]
    else Raise OSError;
  read_service_information := λ p,
    if String.eqb p "/soa/svc/marathon-devc.yaml" then Ok demo_config
    else if String.eqb p "/soa/pinned/marathon-devc.yaml"
    then Ok {["main" := PDict [(PStr "docker_image", PStr "img")]]}
    else if String.eqb p "/soa/ghost/not-a-marathon-devc.yaml"
    then Ok {["main" := PDict []]}
    else Ok ∅;
  ls_remote := λ _ _ url,
    if String.eqb url "git@git.yelpcorp.com:services/svc.git" then Ok demo_listing
    else Raise GitCommandError
|}.

(** A remote that answers, but has no heads: [git ls-remote -h] prints
    nothing. *)
Definition bare_remote_world : World := {|
  mkdtemp := Ok "/tmp/tmpq1w2e3";
  os_rmdir := λ _, Ok ();
  os_walk_next := λ top, Ok (top, ["fresh"], []);
  os_listdir := λ _, Ok ["marathon-devc.yaml"];
  read_service_information := λ _, Ok {["main" := PDict []]};
  ls_remote := λ _ _ _, Ok ""
|}.

(** The same collaborators over a configuration root whose service
    directories are [dirs]. *)
Definition with_service_directories (W : World) (dirs : list string) : World := {|
  mkdtemp := mkdtemp W;
  os_rmdir := os_rmdir W;
  os_walk_next := λ top, Ok (top, dirs, []);
  os_listdir := os_listdir W;
  read_service_information := read_service_information W;
  ls_remote := ls_remote W
|}.

(** A service with two configuration files, the second of which the
    reader rejects. *)
Definition scanner_error : exn := ExternalError "yaml.scanner.ScannerError".

Definition broken_yaml_world : World := {|
  mkdtemp := Ok "/tmp/tmpq1w2e3";
  os_rmdir := λ _, Ok ();
  os_walk_next := λ top, Ok (top, ["svc"], []);
  os_listdir := λ _, Ok ["marathon-devc.yaml"; "marathon-prod.yaml"];
  read_service_information := λ p,
    if String.eqb p "/soa/svc/marathon-devc.yaml"
    then Ok {["main" := PDict [(PStr "branch", PStr "release")]]}
    else Raise scanner_error;
  ls_remote := λ _ _ _, Ok ("abcdef0123456789" +:+ TAB +:+ "refs/heads/release")
|}.

(** A repository with the two heads [x/refs/heads/y] and [x/refs/heads/z]:
    the parser takes what stands between the first and the second
    [refs/heads/], so both are listed under the name [x/]. *)
Definition twin_heads_world : World := {|
  mkdtemp := Ok "/tmp/tmpq1w2e3";
  os_rmdir := λ _, Ok ();
  os_walk_next := λ top, Ok (top, ["svc"], []);
  os_listdir := λ _, Ok ["marathon-devc.yaml"];
  read_service_information := λ _, Ok {["main" := PDict [(PStr "branch", PStr "x/")]]};
  ls_remote := λ _ _ _,
    Ok ("aaaaaaaaaaaaaaaa" +:+ TAB +:+ "refs/heads/x/refs/heads/y" +:+ NL +:+
        "bbbbbbbbbbbbbbbb" +:+ TAB +:+ "refs/heads/x/refs/heads/z")
|}.

(** What a run over the sample root does and returns. *)
Definition demo_trace : list event :=
  [examining_event "svc";
   ReadConfig "/soa/svc/marathon-devc.yaml";
   LsRemote "git@git.yelpcorp.com:services/svc.git";
   mapping_event "svc" ("abcdef0123456789", "release");
   mapping_event "svc" ("0123456789abcdef", "devc");
   examining_event "pinned";
   ReadConfig "/soa/pinned/marathon-devc.yaml";
   no_branches_event "pinned";
   examining_event "ghost";
   ReadConfig "/soa/ghost/not-a-marathon-devc.yaml";
   LsRemote "git@git.yelpcorp.com:services/ghost.git";
   warning_event "ghost"].

Definition demo_mapping : gmap string string :=
  <["svc:devc" := "svc:012345"]> (<["svc:release" := "svc:abcdef"]> ∅).

Definition demo_heads : list (string * string) :=
  [("abcdef0123456789", "release"); ("0123456789abcdef", "devc");
   ("fedcba9876543210", "master")].

(** What a run over the repository with the twin heads does and returns. *)
Definition twin_heads_trace : list event :=
  [examining_event "svc";
   ReadConfig "/soa/svc/marathon-devc.yaml";
   LsRemote "git@git.yelpcorp.com:services/svc.git";
   mapping_event "svc" ("aaaaaaaaaaaaaaaa", "x/");
   mapping_event "svc" ("bbbbbbbbbbbbbbbb", "x/")].

Definition twin_heads_mapping : gmap string string := {["svc:x/" := "svc:bbbbbb"]}.

(** ** The output of [git ls-remote -h] *)

(** The line printed for a head [(commit, name)]. *)
Definition head_line (hb : string * string) : string :=
  hb.1 +:+ TAB +:+ "refs/heads/" +:+ hb.2.

(** The lines of an output, one per head, separated by newlines and with
    no newline at the end (GitPython strips it). *)
Fixpoint join_lines (lines : list string) : string :=
  match lines with
  | [] => ""
  | [l] => l
  | l :: ls => l +:+ NL +:+ join_lines ls
  end.

(** A head as git prints it: no tab or newline in the commit or in the
    name, and no [refs/heads/] inside the name. *)
Definition plain_head (hb : string * string) : Prop :=
  str_in TAB hb.1 = false ∧ str_in NL hb.1 = false ∧
  str_in TAB hb.2 = false ∧ str_in NL hb.2 = false ∧
  str_in "refs/heads/" hb.2 = false.

(** A host without a [git] executable: the client raises [OSError], not a
    command error. *)
Definition no_git_world : World := {|
  mkdtemp := Ok "/tmp/tmpq1w2e3";
  os_rmdir := λ _, Ok ();
  os_walk_next := λ top, Ok (top, ["svc"], []);
  os_listdir := λ _, Ok ["marathon-devc.yaml"];
  read_service_information := λ _, Ok {["main" := PDict []]};
  ls_remote := λ _ _ _, Raise OSError
|}.

(** The sample root on a host where the scratch directory cannot be
    removed. *)
Definition sticky_tmp_world : World := {|
  mkdtemp := mkdtemp demo_world;
  os_rmdir := λ _, Raise OSError;
  os_walk_next := os_walk_next demo_world;
  os_listdir := os_listdir demo_world;
  read_service_information := read_service_information demo_world;
  ls_remote := ls_remote demo_world
|}.

(** A configuration file with an instance that has no body: YAML loads
    [main:] as null. *)
Definition null_instance_world : World := {|
  mkdtemp := Ok "/tmp/tmpq1w2e3";
  os_rmdir := λ _, Ok ();
  os_walk_next := λ top, Ok (top, ["svc"], []);
  os_listdir := λ _, Ok ["marathon-devc.yaml"];
  read_service_information := λ _,
    Ok (<["main" := PNone]> {["canary" := PDict [(PStr "branch", PStr "release")]]});
  ls_remote := λ _ _ _, Ok ("abcdef0123456789" +:+ TAB +:+ "refs/heads/release")
|}.

(** Values on which [k in v] raises: null, booleans and numbers. *)
Definition is_scalar (v : pyval) : bool :=
  match v with
  | PNone | PBool _ | PInt _ => true
  | PStr _ | PList _ | PDict _ => false
  end.

(** The events of the turn of a service, and whether the turn completes;
    neither depends on the dictionary the turn starts from. *)
Definition turn_trace (W : World) (soa_dir mygit service : string) : list event :=
  (examine_service W soa_dir mygit ∅ service).1.

Definition turn_ok (W : World) (soa_dir mygit service : string) : bool :=
  is_ok (examine_service W soa_dir mygit ∅ service).2.

(** No two entries under one key with different values. *)
Definition agreeing (kvs : list (string * string)) : Prop :=
  ∀ kv kv', kv ∈ kvs → kv' ∈ kvs → kv.1 = kv'.1 → kv.2 = kv'.2.

(** ** The entry point

    [main] takes the parsed arguments, makes the configuration root
    absolute, sets the level of the logger, builds the mapping and dumps it
    as JSON to [deployments.json] under the root.  Beside the
    collaborators of the script it needs [os.path.abspath], [open] and
    [json.dump]; what it does to them is recorded as an [action]. *)

Definition TARGET_FILE : string := "deployments.json".

(** The namespace [parse_args()] returns. *)
Record Args : Type := {
  soa_dir : string;
  verbose : bool;
}.

Record Host : Type := {
  world : World;
  (** [os.path.abspath(path)] *)
  os_path_abspath : string → result string;
  (** [open(path, 'w')] *)
  open_for_writing : string → result unit;
  (** [json.dump(mappings, f)] on the file opened at the path *)
  json_dump : gmap string string → string → result unit;
}.

Inductive action : Type :=
| Script (e : event)
| SetLevel (lvl : level)
| Open (path : string)
| Dump (mappings : gmap string string) (path : string)
| Close (path : string).

Definition MA (A : Type) : Type := list action * result A.

Definition bindA {A B} (m : MA A) (k : A → MA B) : MA B :=
  match m with
  | (t, Ok a) => let (t', r) := k a in ((t ++ t')%list, r)
  | (t, Raise e) => (t, Raise e)
  end.

Definition act (a : action) : MA unit := ([a], Ok ()).

Definition liftA {A} (r : result A) : MA A := ([], r).

(** The script proper, run inside [main]. *)
Definition script {A} (m : M A) : MA A := (map Script m.1, m.2).

(** [with open(path, 'w') as f: body(f)]: the file is closed when the body
    is left, also by an exception. *)
Definition with_open (H : Host) (path : string) (body : MA unit) : MA unit :=
  bindA (act (Open path)) (λ _,
  bindA (liftA (open_for_writing H path)) (λ _,
  match body with
  | (t, r) => ((t ++ [Close path])%list, r)
  end)).

Definition main (H : Host) (args : Args) : MA unit :=
  bindA (liftA (os_path_abspath H (soa_dir args))) (λ soa_dir,
  bindA (if verbose args then act (SetLevel INFO) else act (SetLevel WARNING)) (λ _,
  bindA (script (get_branch_mappings (world H) soa_dir)) (λ mappings,
  with_open H (path_join soa_dir TARGET_FILE)
    (bindA (act (Dump mappings (path_join soa_dir TARGET_FILE))) (λ _,
     liftA (json_dump H mappings (path_join soa_dir TARGET_FILE))))))).

Definition is_file_action (a : action) : bool :=
  match a with
  | Open _ | Dump _ _ | Close _ => true
  | Script _ | SetLevel _ => false
  end.

(** The sample root on a host that resolves it and lets the file be
    written, and the bare remote on the same host. *)
Definition demo_host : Host := {|
  world := demo_world;
  os_path_abspath := λ p, Ok ("/" +:+ p);
  open_for_writing := λ _, Ok ();
  json_dump := λ _ _, Ok ()
|}.

Definition bare_remote_host : Host := {|
  world := bare_remote_world;
  os_path_abspath := λ p, Ok ("/" +:+ p);
  open_for_writing := λ _, Ok ();
  json_dump := λ _ _, Ok ()
|}.


(** ** Strings *)

Lemma append_cons c (s t : string) : String c s +:+ t = String c (s +:+ t).
Proof. reflexivity. Qed.

Lemma append_empty_l (s : string) : "" +:+ s = s.
Proof. reflexivity. Qed.

Lemma append_empty_r (s : string) : s +:+ "" = s.
Proof. induction s as [|c s IH]; [done | by rewrite append_cons, IH]. Qed.

Lemma append_assoc (a b c : string) : (a +:+ b) +:+ c = a +:+ (b +:+ c).
Proof. induction a as [|x a IH]; [done | by rewrite !append_cons, IH]. Qed.

Lemma split_from_not_nil sep k cur s : split_from sep k cur s ≠ [].
Proof.
  revert k cur. induction s as [|c s IH]; intros k cur; [done|].
  cbn [split_from]. destruct k; [|apply IH].
  destruct (String.prefix sep (String c s)); [done | apply IH].
Qed.

(** Without an occurrence of the separator the string is its only piece. *)
Lemma split_from_absent sep cur s :
  str_in sep s = false → split_from sep 0 cur s = [cur +:+ s].
Proof.
  revert cur. induction s as [|c s IH]; intros cur H.
  - simpl. by rewrite append_empty_r.
  - cbn [str_in] in H. apply orb_false_iff in H as [Hp Hs].
    cbn [split_from]. rewrite Hp, (IH _ Hs), append_assoc. done.
Qed.

Lemma split_absent sep s : str_in sep s = false → split s sep = [s].
Proof. intros H. unfold split. by rewrite split_from_absent. Qed.

Lemma prefix_char c d s :
  String.prefix (String c "") (String d s) = Ascii.eqb c d.
Proof.
  simpl. destruct (ascii_dec c d) as [->|Hne].
  - rewrite Ascii.eqb_refl. by destruct s.
  - symmetry. by apply Ascii.eqb_neq.
Qed.

Lemma str_in_char_cons c d s :
  str_in (String c "") (String d s) = Ascii.eqb c d || str_in (String c "") s.
Proof. cbn [str_in]. by rewrite prefix_char. Qed.


(** Splitting [a +:+ c +:+ rest] when [c] does not occur in [a]. *)
Lemma split_char_second c a rest cur :
  str_in (String c "") a = false →
  split_from (String c "") 0 cur (a +:+ String c rest)
  = (cur +:+ a) :: split_from (String c "") 0 "" rest.
Proof.
  revert cur. induction a as [|d a IH]; intros cur H.
  - rewrite append_empty_l. cbn [split_from]. rewrite prefix_char, Ascii.eqb_refl.
    by rewrite append_empty_r.
  - rewrite str_in_char_cons in H. apply orb_false_iff in H as [Hd Ha].
    rewrite append_cons. cbn [split_from].
    rewrite prefix_char, Hd, (IH _ Ha), append_assoc. done.
Qed.

Lemma upto_absent c a rest :
  str_in (String c "") a = false → upto c (a +:+ String c rest) = a.
Proof.
  induction a as [|d a IH]; intros H.
  - rewrite append_empty_l. simpl. by rewrite Ascii.eqb_refl.
  - rewrite str_in_char_cons in H. apply orb_false_iff in H as [Hd Ha].
    rewrite append_cons. simpl. by rewrite Hd, (IH Ha).
Qed.




(** ** The trace monad and its loops *)

Lemma bind_assoc {A B C} (m : M A) (f : A → M B) (g : B → M C) :
  bind (bind m f) g = bind m (λ a, bind (f a) g).
Proof.
  destruct m as [t [a|e]]; simpl; [|done].
  destruct (f a) as [t1 [b|e]]; simpl; [|done].
  destruct (g b) as [t2 r]. by rewrite app_assoc.
Qed.

Lemma bind_ok {A B} (t : list event) (a : A) (k : A → M B) :
  bind (t, Ok a) k = ((t ++ (k a).1)%list, (k a).2).
Proof. simpl. by destruct (k a). Qed.

Lemma bind_ret_r {A} (m : M A) : bind m ret = m.
Proof. destruct m as [t [a|e]]; simpl; [by rewrite app_nil_r | done]. Qed.

Lemma for_eachM_app {A S} (body : S → A → M S) (l1 l2 : list A) (s : S) :
  for_eachM body (l1 ++ l2)%list s
  = bind (for_eachM body l1 s) (for_eachM body l2).
Proof.
  revert s. induction l1 as [|x l1 IH]; intros s; simpl.
  - by destruct (for_eachM body l2 s).
  - rewrite bind_assoc. destruct (body s x) as [t [s'|e]]; simpl; [|done].
    by rewrite IH.
Qed.

(** A turn that raises ends the loop with its exception. *)
Lemma for_eachM_raise {A S} (body : S → A → M S) (l1 l2 : list A) (x : A)
    (s s1 : S) (t1 t : list event) (e : exn) :
  for_eachM body l1 s = (t1, Ok s1) →
  body s1 x = (t, Raise e) →
  for_eachM body (l1 ++ x :: l2)%list s = ((t1 ++ t)%list, Raise e).
Proof.
  intros H1 Hx. rewrite for_eachM_app, H1. simpl. by rewrite Hx.
Qed.

(** A turn that leaves the state alone can be dropped, trace apart. *)
Lemma for_eachM_skip {A S} (body : S → A → M S) (l1 l2 : list A) (x : A) (s : S) :
  (∀ s1, (body s1 x).2 = Ok s1) →
  (for_eachM body (l1 ++ x :: l2)%list s).2 = (for_eachM body (l1 ++ l2)%list s).2.
Proof.
  intros Hx. rewrite !for_eachM_app.
  destruct (for_eachM body l1 s) as [t1 [s1|e]]; [|done].
  rewrite !bind_ok. cbn [snd for_eachM].
  specialize (Hx s1). destruct (body s1 x) as [t r]. simpl in Hx. subst r.
  rewrite bind_ok. done.
Qed.

(** The loop completes exactly when every turn does; the turns it ran are
    a chain through the intermediate states. *)
Lemma for_eachM_ok_inv {A S} (body : S → A → M S) (l : list A) (x : A)
    (s s' : S) (t : list event) :
  for_eachM body l s = (t, Ok s') → x ∈ l →
  ∃ l1 l2 s1 s2 t1 tx t2,
    l = (l1 ++ x :: l2)%list ∧ t = (t1 ++ tx ++ t2)%list ∧
    for_eachM body l1 s = (t1, Ok s1) ∧ body s1 x = (tx, Ok s2) ∧
    for_eachM body l2 s2 = (t2, Ok s').
Proof.
  intros H Hin. apply list_elem_of_split in Hin as (l1 & l2 & ->).
  rewrite for_eachM_app in H.
  destruct (for_eachM body l1 s) as [t1 [s1|e]] eqn:E1; [|done].
  rewrite bind_ok in H. cbn [for_eachM] in H.
  destruct (body s1 x) as [tx [s2|e]] eqn:Ex; [|done].
  rewrite bind_ok in H.
  destruct (for_eachM body l2 s2) as [t2 [s3|e]] eqn:E2; [|done].
  simpl in H. injection H as <- <-.
  by exists l1, l2, s1, s2, t1, tx, t2.
Qed.

Lemma comprehension_raise_index {A B} (f : A → result B) (xs : list A) (e : exn) :
  (∀ x e', f x = Raise e' → e' = IndexError) →
  comprehension f xs = Raise e → e = IndexError.
Proof.
  intros Hf. induction xs as [|x xs IH]; simpl; [done|].
  destruct (f x) as [y|e'] eqn:E; simpl.
  - destruct (comprehension f xs); simpl; [done|]. intros [= <-]. by apply IH.
  - intros [= <-]. by apply (Hf x).
Qed.

Lemma comprehension_raise_at {A B} (f : A → result B) (xs : list A) (x : A) :
  (∀ x e', f x = Raise e' → e' = IndexError) →
  x ∈ xs → f x = Raise IndexError →
  comprehension f xs = Raise IndexError.
Proof.
  intros Hf Hin Hx. induction Hin as [x xs|x y xs Hin IH]; simpl.
  - by rewrite Hx.
  - destruct (f y) as [z|e'] eqn:E; simpl.
    + by rewrite IH.
    + by rewrite (Hf _ _ E).
Qed.

Lemma index_raise {A} (xs : list A) (i : nat) (e : exn) :
  index xs i = Raise e → e = IndexError.
Proof. unfold index. destruct (nth_error xs i); [done | by intros [= <-]]. Qed.

Lemma parse_branch_raise branch e : parse_branch branch = Raise e → e = IndexError.
Proof.
  unfold parse_branch.
  destruct (index (split branch TAB) 0) eqn:E0; simpl; [|intros [= <-]; eauto using index_raise].
  destruct (index (split branch TAB) 1) eqn:E1; simpl; [|intros [= <-]; eauto using index_raise].
  destruct (index (split a0 "refs/heads/") 1) eqn:E2; simpl; [done|].
  intros [= <-]; eauto using index_raise.
Qed.

(** ** Insertions and the dictionary *)

Lemma inserts_of_app t1 t2 : inserts_of (t1 ++ t2)%list = (inserts_of t1 ++ inserts_of t2)%list.
Proof. apply omap_app. Qed.

Lemma inserts_of_none tr :
  Forall (λ e, insert_of e = None) tr → inserts_of tr = [].
Proof.
  induction 1 as [|e tr He _ IH]; [done|].
  unfold inserts_of in *. cbn [omap list_omap]. by rewrite He.
Qed.

Lemma inserts_of_mapping_events service l :
  inserts_of (map (mapping_event service) l) = map (entry_of service) l.
Proof.
  induction l as [|hb l IH]; [done|].
  unfold inserts_of in *. cbn [map omap list_omap]. rewrite IH.
  unfold mapping_event at 1. done.
Qed.

Lemma replay_app kvs1 kvs2 m : replay (kvs1 ++ kvs2)%list m = replay kvs2 (replay kvs1 m).
Proof. apply foldl_app. Qed.

(** Last write wins: the value under [k] is that of the last insertion
    under [k], and the initial one when there is none. *)
Lemma lookup_replay kvs m k :
  replay kvs m !! k =
  match last (writes_to k kvs) with
  | Some kv => Some kv.2
  | None => m !! k
  end.
Proof.
  induction kvs as [|kv kvs IH] using rev_ind; [done|].
  rewrite replay_app. unfold writes_to in *. rewrite filter_app.
  cbn [replay foldl]. rewrite filter_cons, filter_nil.
  destruct (decide (kv.1 = k)) as [<-|Hne].
  - rewrite lookup_insert_eq, last_snoc. done.
  - rewrite lookup_insert_ne by done. rewrite app_nil_r. apply IH.
Qed.

Lemma add_mappings_run service l m :
  for_eachM (add_mapping service) l m
  = (map (mapping_event service) l, Ok (replay (map (entry_of service) l) m)).
Proof.
  revert m. induction l as [|hb l IH]; intros m; [done|].
  cbn [for_eachM]. unfold add_mapping at 1. unfold log, emit, ret. simpl.
  rewrite IH. done.
Qed.

(** ** Branch resolution *)

Section Resolution.

Variable W : World.

(** What one instance adds to the set: nothing, or the key of its
    target branch. *)
Lemma add_instance_ok filename vb item vb' :
  add_instance filename vb item = Ok vb' →
  ∃ tb, target_branch filename item.2 = Ok tb ∧
    ((truthy tb = false ∧ vb' = vb) ∨
     (truthy tb = true ∧ ∃ k, hash_key tb = Ok k ∧ vb' = {[k]} ∪ vb)).
Proof.
  unfold add_instance. destruct (target_branch filename item.2) as [tb|e]; [|done].
  cbn [rbind]. intros H. exists tb. split; [done|].
  destruct (truthy tb).
  - right. split; [done|]. unfold set_add in H.
    destruct (hash_key tb) as [k|e]; [|done]. injection H as <-. eauto.
  - left. by injection H as <-.
Qed.

(** The set a completed loop over the instances returns. *)
Lemma for_each_add_instance_ok filename items vb vb' :
  for_each (add_instance filename) items vb = Ok vb' →
  ∀ k, k ∈ vb' ↔
    k ∈ vb ∨ ∃ item tb, item ∈ items ∧ target_branch filename item.2 = Ok tb ∧
                        truthy tb = true ∧ hash_key tb = Ok k.
Proof.
  revert vb. induction items as [|item items IH]; intros vb H k.
  - injection H as <-. split; [by left|]. intros [?|(item & tb & Hin & _)]; [done|].
    by apply elem_of_nil in Hin.
  - cbn [for_each] in H.
    destruct (add_instance filename vb item) as [vb1|e] eqn:E; [|done].
    cbn [rbind] in H. rewrite (IH _ H k).
    apply add_instance_ok in E as (tb & Htb & [[Hf ->]|[Ht (k1 & Hk1 & ->)]]).
    + split.
      * intros [?|(i & tb' & Hin & ?)]; [by left|]. right. exists i, tb'.
        split; [by right | done].
      * intros [?|(i & tb' & Hin & Htb' & Ht' & Hk)]; [by left|].
        apply elem_of_cons in Hin as [->|Hin]; [congruence|].
        right. by exists i, tb'.
    + rewrite elem_of_union, elem_of_singleton. split.
      * intros [[->|?]|(i & tb' & Hin & ?)]; [| by left |].
        -- right. exists item, tb. split; [by left | done].
        -- right. exists i, tb'. split; [by right | done].
      * intros [?|(i & tb' & Hin & Htb' & Ht' & Hk)]; [by left; right|].
        apply elem_of_cons in Hin as [->|Hin].
        -- left; left. congruence.
        -- right. by exists i, tb'.
Qed.

Lemma file_run file_dir filename :
  get_branches_from_marathon_file W file_dir filename
  = ([ReadConfig (path_join file_dir filename)],
     let? config := read_service_information W (path_join file_dir filename) in
     for_each (add_instance filename) (map_to_list config) ∅).
Proof.
  unfold get_branches_from_marathon_file, emit, lift. simpl.
  by destruct (read_service_information W (path_join file_dir filename)).
Qed.

(** The branches of a configuration file that could be resolved. *)
Lemma file_branches file_dir filename config vb :
  read_service_information W (path_join file_dir filename) = Ok config →
  (get_branches_from_marathon_file W file_dir filename).2 = Ok vb →
  ∀ k, k ∈ vb ↔
    ∃ instance inst tb, config !! instance = Some inst ∧
      target_branch filename inst = Ok tb ∧ truthy tb = true ∧ hash_key tb = Ok k.
Proof.
  intros Hr. rewrite file_run, Hr. cbn [snd rbind]. intros H k.
  rewrite (for_each_add_instance_ok _ _ _ _ H k). split.
  - intros [Hk|([i v] & tb & Hin & ?)]; [by apply not_elem_of_empty in Hk|].
    apply elem_of_map_to_list in Hin. by exists i, v, tb.
  - intros (i & v & tb & Hi & ?). right. exists (i, v), tb.
    split; [by apply elem_of_map_to_list | done].
Qed.

Lemma add_file_run working_dir vb fname :
  add_file W working_dir vb fname
  = if str_in "marathon-" fname then
      ([ReadConfig (path_join working_dir fname)],
       let? bs := (get_branches_from_marathon_file W working_dir fname).2 in
       Ok (vb ∪ bs))
    else ([], Ok vb).
Proof.
  unfold add_file. destruct (str_in "marathon-" fname); [|done].
  rewrite file_run. cbn [snd].
  by destruct (let? config := _ in _).
Qed.

Lemma read_events_cons working_dir f fnames :
  read_events working_dir (f :: fnames)
  = if str_in "marathon-" f
    then ReadConfig (path_join working_dir f) :: read_events working_dir fnames
    else read_events working_dir fnames.
Proof.
  unfold read_events. rewrite filter_cons.
  destruct (str_in "marathon-" f); by case_decide.
Qed.

(** Whatever happens, the files read are an initial segment of the files
    whose name contains [marathon-], in listing order. *)
Lemma files_loop_trace working_dir fnames vb :
  (for_eachM (add_file W working_dir) fnames vb).1 `prefix_of` read_events working_dir fnames.
Proof.
  revert vb. induction fnames as [|f fnames IH]; intros vb; [done|].
  cbn [for_eachM]. rewrite add_file_run, read_events_cons.
  destruct (str_in "marathon-" f).
  - destruct (let? bs := _ in _) as [vb1|e]; simpl.
    + specialize (IH vb1). destruct (for_eachM _ fnames vb1) as [t r]. simpl in *.
      by apply prefix_cons.
    + apply prefix_cons, prefix_nil.
  - simpl. specialize (IH vb). by destruct (for_eachM _ fnames vb).
Qed.

(** A completed loop has read all of them, and returns the union of
    their sets. *)
Lemma files_loop_ok working_dir fnames vb t vb' :
  for_eachM (add_file W working_dir) fnames vb = (t, Ok vb') →
  t = read_events working_dir fnames ∧
  ∀ k, k ∈ vb' ↔
    k ∈ vb ∨ ∃ f bs, f ∈ fnames ∧ str_in "marathon-" f = true ∧
      (get_branches_from_marathon_file W working_dir f).2 = Ok bs ∧ k ∈ bs.
Proof.
  revert vb t. induction fnames as [|f fnames IH]; intros vb t H.
  - injection H as <- <-. split; [done|]. intros k. split; [by left|].
    intros [?|(f & bs & Hin & _)]; [done | by apply elem_of_nil in Hin].
  - cbn [for_eachM] in H. rewrite add_file_run in H. rewrite read_events_cons.
    destruct (str_in "marathon-" f) eqn:Ef.
    + destruct ((get_branches_from_marathon_file W working_dir f).2) as [bs|e] eqn:Eb;
        [|done].
      cbn [rbind] in H. rewrite bind_ok in H.
      destruct (for_eachM _ fnames (vb ∪ bs)) as [t1 [vb1|e]] eqn:E1; [|done].
      simpl in H. injection H as <- <-.
      destruct (IH _ _ E1) as [-> IHk]. split; [done|]. intros k.
      rewrite IHk, elem_of_union. split.
      * intros [[?|?]|(g & bs' & Hin & ?)]; [by left | |].
        -- right. exists f, bs. split; [by left | done].
        -- right. exists g, bs'. split; [by right | done].
      * intros [?|(g & bs' & Hin & Hg & Hbs & Hk)]; [by left; left|].
        apply elem_of_cons in Hin as [->|Hin].
        -- left; right. congruence.
        -- right. by exists g, bs'.
    + rewrite bind_ok in H.
      destruct (for_eachM _ fnames vb) as [t1 [vb1|e]] eqn:E1; [|done].
      simpl in H. injection H as <- <-.
      destruct (IH _ _ E1) as [-> IHk]. split; [done|]. intros k.
      rewrite IHk. split.
      * intros [?|(g & bs' & Hin & ?)]; [by left|].
        right. exists g, bs'. split; [by right | done].
      * intros [?|(g & bs' & Hin & Hg & Hbs & Hk)]; [by left|].
        apply elem_of_cons in Hin as [->|Hin]; [congruence|].
        right. by exists g, bs'.
Qed.

(** The first file that cannot be resolved ends the loop. *)
Lemma files_loop_raise working_dir l1 l2 f vb e :
  str_in "marathon-" f = true →
  is_ok (for_eachM (add_file W working_dir) l1 vb).2 = true →
  (get_branches_from_marathon_file W working_dir f).2 = Raise e →
  for_eachM (add_file W working_dir) (l1 ++ f :: l2)%list vb
  = (read_events working_dir (l1 ++ [f]), Raise e).
Proof.
  intros Hf H1 He.
  destruct (for_eachM (add_file W working_dir) l1 vb) as [t1 [vb1|e1]] eqn:E1; [|done].
  destruct (files_loop_ok _ _ _ _ _ E1) as [-> _].
  rewrite (for_eachM_raise _ l1 l2 f vb vb1 _ [ReadConfig (path_join working_dir f)] e E1).
  - unfold read_events. rewrite filter_app, map_app, filter_cons, filter_nil.
    by case_decide.
  - rewrite add_file_run, Hf, He. done.
Qed.

Lemma service_branches_run soa_dir service :
  get_branches_for_service W soa_dir service
  = match os_listdir W (path_join soa_dir service) with
    | Ok fnames => for_eachM (add_file W (path_join soa_dir service)) fnames ∅
    | Raise e => ([], Raise e)
    end.
Proof.
  unfold get_branches_for_service, lift.
  destruct (os_listdir W (path_join soa_dir service)) as [fnames|e]; [|done].
  simpl. by destruct (for_eachM _ fnames ∅).
Qed.

(** Branch resolution only reads configuration files. *)
Lemma service_branches_reads soa_dir service :
  Forall (λ e, is_read e = true) (get_branches_for_service W soa_dir service).1.
Proof.
  rewrite service_branches_run.
  destruct (os_listdir W (path_join soa_dir service)) as [fnames|e]; [|by constructor].
  destruct (files_loop_trace (path_join soa_dir service) fnames ∅) as [rest Hrest].
  assert (Forall (λ e, is_read e = true) (read_events (path_join soa_dir service) fnames)) as HF.
  { unfold read_events. apply Forall_forall. intros e He.
    apply list_elem_of_fmap in He as (f & -> & _). done. }
  rewrite Hrest in HF. by apply Forall_app in HF as [? _].
Qed.

End Resolution.

(** ** Remote listing and the main loop *)

Section Mapping.

Variable W : World.

Lemma remote_run mygit service :
  get_remote_branches_for_service W mygit service
  = match ls_remote W mygit "-h" (get_git_url service) with
    | Ok out => ([LsRemote (get_git_url service)],
                 comprehension parse_branch (split out NL))
    | Raise GitCommandError =>
        ([LsRemote (get_git_url service); warning_event service], Ok [])
    | Raise e => ([LsRemote (get_git_url service)], Raise e)
    end.
Proof.
  unfold get_remote_branches_for_service, try_except, emit, lift, log.
  destruct (ls_remote W mygit "-h" (get_git_url service)) as [out|e]; simpl.
  - destruct (comprehension parse_branch (split out NL)) as [l|e] eqn:E; [done|].
    pose proof (comprehension_raise_index _ _ _ parse_branch_raise E) as ->. done.
  - by destruct e.
Qed.

Lemma remote_no_inserts mygit service :
  inserts_of (get_remote_branches_for_service W mygit service).1 = [].
Proof.
  rewrite remote_run.
  destruct (ls_remote W mygit "-h" (get_git_url service)) as [out|[]]; done.
Qed.

Lemma reads_no_inserts tr :
  Forall (λ e, is_read e = true) tr → inserts_of tr = [].
Proof.
  intros H. apply inserts_of_none. eapply Forall_impl; [exact H|].
  by intros [].
Qed.

(** One turn of the main loop, case by case. *)
Lemma examine_service_run soa_dir mygit m service :
  examine_service W soa_dir mygit m service
  = match get_branches_for_service W soa_dir service with
    | (t1, Raise e) => (examining_event service :: t1, Raise e)
    | (t1, Ok vb) =>
        if bool_decide (vb = ∅)
        then ((examining_event service :: t1) ++ [no_branches_event service], Ok m)
        else
          match get_remote_branches_for_service W mygit service with
          | (t2, Raise e) => ((examining_event service :: t1) ++ t2, Raise e)
          | (t2, Ok refs) =>
              ((examining_event service :: t1) ++ t2
                 ++ map (mapping_event service) (tracked_refs vb refs),
               Ok (replay (map (entry_of service) (tracked_refs vb refs)) m))
          end
    end%list.
Proof.
  unfold examine_service, log, emit. 
  destruct (get_branches_for_service W soa_dir service) as [t1 [vb|e]]; [|done].
  cbn [bind app]. case_bool_decide.
  - done.
  - destruct (get_remote_branches_for_service W mygit service) as [t2 [refs|e]]; [|done].
    cbn [bind]. fold (tracked_refs vb refs). rewrite add_mappings_run. done.
Qed.

End Mapping.

Section Run.

Variable W : World.

Lemma tracked_refs_empty refs : tracked_refs ∅ refs = [].
Proof.
  unfold tracked_refs. induction refs as [|hb refs IH]; [done|].
  rewrite filter_cons. case_decide as H; [by apply not_elem_of_empty in H | done].
Qed.

(** The insertions of one turn are the entries of its service. *)
Lemma examine_service_inserts soa_dir mygit m service :
  (∃ e, branches_of W soa_dir service = Raise e ∧
        (examine_service W soa_dir mygit m service).2 = Raise e ∧
        inserts_of (examine_service W soa_dir mygit m service).1 = []) ∨
  (∃ e vb, branches_of W soa_dir service = Ok vb ∧ vb ≠ ∅ ∧
        remote_of W mygit service = Raise e ∧
        (examine_service W soa_dir mygit m service).2 = Raise e ∧
        inserts_of (examine_service W soa_dir mygit m service).1 = []) ∨
  (is_ok (branches_of W soa_dir service) = true ∧
   inserts_of (examine_service W soa_dir mygit m service).1
     = service_entries W soa_dir mygit service ∧
   (examine_service W soa_dir mygit m service).2
     = Ok (replay (service_entries W soa_dir mygit service) m)).
Proof.
  rewrite examine_service_run. unfold service_entries, branches_of, remote_of.
  pose proof (service_branches_reads W soa_dir service) as Hreads.
  apply reads_no_inserts in Hreads.
  pose proof (remote_no_inserts W mygit service) as Hrem.
  destruct (get_branches_for_service W soa_dir service) as [t1 [vb|e]]; cbn [fst snd] in *.
  - case_bool_decide as Hvb.
    + right; right. subst vb. split; [done|]. cbn [fst snd].
      change (examining_event service :: t1) with ([examining_event service] ++ t1)%list.
      rewrite !inserts_of_app, Hreads.
      destruct (get_remote_branches_for_service W mygit service).2;
        by rewrite ?tracked_refs_empty.
    + destruct (get_remote_branches_for_service W mygit service) as [t2 [refs|e]];
        cbn [fst snd] in *.
      * right; right. split; [done|].
        change (examining_event service :: t1) with ([examining_event service] ++ t1)%list.
        rewrite !inserts_of_app, Hreads, Hrem, inserts_of_mapping_events. done.
      * right; left. exists e, vb. repeat split; try done;
        change (examining_event service :: t1) with ([examining_event service] ++ t1)%list;
        rewrite !inserts_of_app, Hreads, Hrem; done.
  - left. exists e. repeat split; try done;
    change (examining_event service :: t1) with ([examining_event service] ++ t1)%list;
    rewrite !inserts_of_app, Hreads; done.
Qed.

(** The trace of a turn does not depend on the dictionary it starts from. *)
Lemma examine_service_trace soa_dir mygit m m' service :
  (examine_service W soa_dir mygit m service).1
  = (examine_service W soa_dir mygit m' service).1.
Proof.
  rewrite !examine_service_run.
  destruct (get_branches_for_service W soa_dir service) as [t1 [vb|e]]; [|done].
  case_bool_decide; [done|].
  by destruct (get_remote_branches_for_service W mygit service) as [t2 [refs|e]].
Qed.

(** Every insertion of the main loop, completed or not, is an entry of
    one of the services. *)
Lemma loop_inserts_from soa_dir mygit services m kv :
  kv ∈ inserts_of (for_eachM (examine_service W soa_dir mygit) services m).1 →
  ∃ service, service ∈ services ∧ kv ∈ service_entries W soa_dir mygit service.
Proof.
  revert m. induction services as [|s services IH]; intros m Hin.
  - by apply elem_of_nil in Hin.
  - cbn [for_eachM] in Hin.
    pose proof (examine_service_inserts soa_dir mygit m s) as Hs.
    destruct (examine_service W soa_dir mygit m s) as [t [m1|e]] eqn:E; cbn [fst snd] in *.
    + rewrite bind_ok in Hin. cbn [fst] in Hin. rewrite inserts_of_app in Hin.
      apply elem_of_app in Hin as [Hin|Hin].
      * destruct Hs as [(e & _ & ? & _)|[(e & vb & _ & _ & _ & ? & _)|(_ & Hs & _)]];
          [done | done |].
        exists s. split; [by left | by rewrite <- Hs].
      * destruct (IH _ Hin) as (s' & ? & ?). exists s'. split; [by right | done].
    + cbn [bind fst] in Hin.
      destruct Hs as [(e' & _ & _ & Hs)|[(e' & vb & _ & _ & _ & _ & Hs)|(_ & _ & ?)]];
        [| | done]; rewrite Hs in Hin; by apply elem_of_nil in Hin.
Qed.

(** A completed loop has made the insertions of all its services, in
    order, and its dictionary is their replay. *)
Lemma loop_ok soa_dir mygit services m t m' :
  for_eachM (examine_service W soa_dir mygit) services m = (t, Ok m') →
  inserts_of t = concat (map (service_entries W soa_dir mygit) services) ∧
  m' = replay (inserts_of t) m.
Proof.
  revert m t. induction services as [|s services IH]; intros m t H.
  - by injection H as <- <-.
  - cbn [for_eachM] in H.
    pose proof (examine_service_inserts soa_dir mygit m s) as Hs.
    destruct (examine_service W soa_dir mygit m s) as [t1 [m1|e]] eqn:E; [|done].
    cbn [fst snd] in Hs. rewrite bind_ok in H.
    destruct (for_eachM _ services m1) as [t2 [m2|e]] eqn:E2; [|done].
    cbn [fst snd] in H. injection H as <- <-.
    destruct (IH _ _ E2) as [Hi ->].
    destruct Hs as [(e & _ & ? & _)|[(e & vb & _ & _ & _ & ? & _)|(_ & Hs & Hm)]];
      [done | done |].
    injection Hm as ->.
    rewrite inserts_of_app, replay_app, Hi, Hs. done.
Qed.

(** The script around its main loop. *)
Lemma run_shape soa_dir :
  get_branch_mappings W soa_dir
  = match mkdtemp W with
    | Raise e => ([], Raise e)
    | Ok tmp_dir =>
        match get_service_directories W soa_dir with
        | Raise e => ([], Raise e)
        | Ok services =>
            match for_eachM (examine_service W soa_dir tmp_dir) services ∅ with
            | (t, Raise e) => (t, Raise e)
            | (t, Ok m) =>
                match os_rmdir W tmp_dir with
                | Ok _ => (t, Ok m)
                | Raise OSError => ((t ++ [rmdir_event tmp_dir])%list, Ok m)
                | Raise e => (t, Raise e)
                end
            end
        end
    end.
Proof.
  unfold get_branch_mappings, lift, log, emit.
  destruct (mkdtemp W) as [tmp_dir|e]; [|done]. cbn [bind app].
  destruct (get_service_directories W soa_dir) as [services|e]; [|done]. cbn [bind app].
  destruct (for_eachM _ services ∅) as [t [m|e]]; [|done]. cbn [bind].
  destruct (os_rmdir W tmp_dir) as [[]|[]]; simpl; by rewrite ?app_nil_r.
Qed.

Lemma run_ok_inv soa_dir tr m :
  get_branch_mappings W soa_dir = (tr, Ok m) →
  ∃ tmp_dir services t,
    mkdtemp W = Ok tmp_dir ∧ get_service_directories W soa_dir = Ok services ∧
    for_eachM (examine_service W soa_dir tmp_dir) services ∅ = (t, Ok m) ∧
    inserts_of tr = inserts_of t.
Proof.
  rewrite run_shape.
  destruct (mkdtemp W) as [tmp_dir|e]; [|done].
  destruct (get_service_directories W soa_dir) as [services|e]; [|done].
  destruct (for_eachM _ services ∅) as [t [m1|e]] eqn:E; [|done].
  intros H. exists tmp_dir, services, t.
  destruct (os_rmdir W tmp_dir) as [[]|[]]; try done; injection H as <- <-;
    repeat split; try done.
  by rewrite inserts_of_app, app_nil_r.
Qed.

End Run.

(** ** The sample runs *)

Lemma demo_run : get_branch_mappings demo_world "/soa" = (demo_trace, Ok demo_mapping).
Proof. vm_compute. reflexivity. Qed.

Lemma demo_branches :
  branches_of demo_world "/soa" "svc" = Ok {[KStr "release"; KStr "devc"]}.
Proof. vm_compute. reflexivity. Qed.

Lemma demo_remote : remote_of demo_world "/tmp/tmpq1w2e3" "svc" = Ok demo_heads.
Proof. vm_compute. reflexivity. Qed.

Lemma twin_heads_run :
  get_branch_mappings twin_heads_world "/soa" = (twin_heads_trace, Ok twin_heads_mapping).
Proof. vm_compute. reflexivity. Qed.



(** ** What an instance contributes *)

(** An instance whose target branch is falsy leaves every trace of itself
    out of the set of its file: each element comes from another
    instance. *)
Lemma silent_instance W file_dir filename config instance inst tb vb :
  read_service_information W (path_join file_dir filename) = Ok config →
  config !! instance = Some inst →
  target_branch filename inst = Ok tb → truthy tb = false →
  (get_branches_from_marathon_file W file_dir filename).2 = Ok vb →
  ∀ k, k ∈ vb →
    ∃ instance' inst' tb', instance' ≠ instance ∧ config !! instance' = Some inst' ∧
      target_branch filename inst' = Ok tb' ∧ truthy tb' = true ∧ hash_key tb' = Ok k.
Proof.
  intros Hr Hi Htb Hf Hvb k Hk.
  apply (file_branches W _ _ _ _ Hr Hvb) in Hk as (i' & inst' & tb' & Hi' & Htb' & Ht' & Hk).
  exists i', inst', tb'. repeat split; try done.
  intros ->. congruence.
Qed.

Lemma contains_dict k items : contains k (PDict items) = Ok (has_key k items).
Proof. done. Qed.

(** C5: an instance record with a [docker_image] key and no [branch] key
    contributes no branch, whatever the configuration file is called: its
    target branch stays [None], its turn of the loop leaves the set as it
    is, and every branch in the set of its file comes from another
    instance. *)
Theorem docker_image_instance_contributes_no_branch
    (W : World) (file_dir filename instance : string)
    (items : list (pyval * pyval)) :
  has_key "docker_image" items = true →
  has_key "branch" items = false →
  target_branch filename (PDict items) = Ok PNone ∧
  (∀ vb, add_instance filename vb (instance, PDict items) = Ok vb) ∧
  (∀ config vb,
     read_service_information W (path_join file_dir filename) = Ok config →
     config !! instance = Some (PDict items) →
     (get_branches_from_marathon_file W file_dir filename).2 = Ok vb →
     ∀ k, k ∈ vb →
       ∃ instance' inst' tb', instance' ≠ instance ∧ config !! instance' = Some inst' ∧
         target_branch filename inst' = Ok tb' ∧ truthy tb' = true ∧ hash_key tb' = Ok k).
Proof.
  intros Himg Hbr.
  assert (target_branch filename (PDict items) = Ok PNone) as Htb.
  { unfold target_branch. rewrite !contains_dict, Hbr, Himg. done. }
  split; [done|]. split.
  - intros vb. unfold add_instance. cbn [snd]. by rewrite Htb.
  - intros config vb Hr Hi Hvb. by eapply silent_instance.
Qed.

Lemma docker_image_instance_contributes_no_branch_witness :
  has_key "docker_image" [(PStr "docker_image", PStr "docker-dev.yelpcorp.com/legacy")] = true ∧
  has_key "branch" [(PStr "docker_image", PStr "docker-dev.yelpcorp.com/legacy")] = false ∧
  target_branch "marathon-devc.yaml"
    (PDict [(PStr "docker_image", PStr "docker-dev.yelpcorp.com/legacy")]) = Ok PNone.
Proof.
  split; [reflexivity|]. split; [reflexivity|].
  apply (docker_image_instance_contributes_no_branch demo_world "/soa/svc"
           "marathon-devc.yaml" "legacy"
           [(PStr "docker_image", PStr "docker-dev.yelpcorp.com/legacy")]);
    reflexivity.
Defined.

(** C8: an instance record whose [branch] key is present with a falsy
    value contributes no branch: the target branch is that falsy value, with
    or without a [docker_image] key; the token of the file name is not
    taken in its place, and the set stays as it is. *)
Theorem falsy_branch_contributes_no_branch
    (W : World) (file_dir filename instance : string)
    (items : list (pyval * pyval)) (v : pyval) :
  has_key "branch" items = true →
  getitem (PDict items) "branch" = Ok v →
  truthy v = false →
  target_branch filename (PDict items) = Ok v ∧
  (∀ t, filename_branch filename = Ok t → t ≠ "" →
        target_branch filename (PDict items) ≠ Ok (PStr t)) ∧
  (∀ vb, add_instance filename vb (instance, PDict items) = Ok vb) ∧
  (∀ config vb,
     read_service_information W (path_join file_dir filename) = Ok config →
     config !! instance = Some (PDict items) →
     (get_branches_from_marathon_file W file_dir filename).2 = Ok vb →
     ∀ k, k ∈ vb →
       ∃ instance' inst' tb', instance' ≠ instance ∧ config !! instance' = Some inst' ∧
         target_branch filename inst' = Ok tb' ∧ truthy tb' = true ∧ hash_key tb' = Ok k).
Proof.
  intros Hbr Hv Hf.
  assert (target_branch filename (PDict items) = Ok v) as Htb.
  { unfold target_branch. rewrite contains_dict, Hbr. done. }
  split; [done|]. split; [|split].
  - intros t _ Hne Ht. rewrite Htb in Ht. injection Ht as ->.
    simpl in Hf. apply negb_false_iff in Hf. by apply String.eqb_eq in Hf.
  - intros vb. unfold add_instance. cbn [snd]. rewrite Htb. cbn [rbind]. by rewrite Hf.
  - intros config vb Hr Hi Hvb. by eapply silent_instance.
Qed.

Lemma falsy_branch_contributes_no_branch_witness :
  has_key "branch" [(PStr "branch", PNone)] = true ∧
  getitem (PDict [(PStr "branch", PNone)]) "branch" = Ok PNone ∧
  truthy PNone = false ∧
  filename_branch "marathon-devc.yaml" = Ok "devc" ∧
  add_instance "marathon-devc.yaml" ∅ ("parked", PDict [(PStr "branch", PNone)]) = Ok ∅.
Proof.
  split; [reflexivity|]. split; [reflexivity|]. split; [reflexivity|].
  split; [reflexivity|].
  apply (falsy_branch_contributes_no_branch demo_world "/soa/svc"
           "marathon-devc.yaml" "parked" [(PStr "branch", PNone)] PNone);
    reflexivity.
Defined.

(** Once the loop over the files completes, each file whose name
    contains [marathon-] has been resolved. *)
Lemma files_loop_ok_each W working_dir fnames vb t vb' f :
  for_eachM (add_file W working_dir) fnames vb = (t, Ok vb') →
  f ∈ fnames → str_in "marathon-" f = true →
  ∃ bs, (get_branches_from_marathon_file W working_dir f).2 = Ok bs.
Proof.
  intros H Hin Hf.
  destruct (for_eachM_ok_inv _ _ f _ _ _ H Hin)
    as (l1 & l2 & s1 & s2 & t1 & tx & t2 & _ & _ & _ & Hx & _).
  rewrite add_file_run, Hf in Hx.
  destruct (get_branches_from_marathon_file W working_dir f).2 as [bs|e]; [|done].
  by exists bs.
Qed.




(** ** Which files are read *)

Lemma elem_of_read_events working_dir fnames p :
  ReadConfig p ∈ read_events working_dir fnames ↔
  ∃ f, f ∈ fnames ∧ str_in "marathon-" f = true ∧ p = path_join working_dir f.
Proof.
  unfold read_events. rewrite list_elem_of_fmap. split.
  - intros (f & [= ->] & Hf). apply list_elem_of_filter in Hf as [? ?]. by exists f.
  - intros (f & Hin & Hf & ->). exists f. split; [done|].
    by apply list_elem_of_filter.
Qed.

(** C10: the files of a service directory handed to the reader are those
    whose name contains [marathon-] anywhere, in listing order: never
    another file, and all of them once resolution completes, each adding
    its branches to the set; a name such as [not-a-marathon-devc.yaml],
    which does not start with [marathon-], is among them. *)
Theorem file_read_iff_name_contains_marathon
    (W : World) (soa_dir service : string) (fnames : list string) :
  os_listdir W (path_join soa_dir service) = Ok fnames →
  (∀ p, ReadConfig p ∈ (get_branches_for_service W soa_dir service).1 →
     ∃ f, f ∈ fnames ∧ str_in "marathon-" f = true ∧
          p = path_join (path_join soa_dir service) f) ∧
  (get_branches_for_service W soa_dir service).1
    `prefix_of` read_events (path_join soa_dir service) fnames ∧
  (∀ vb, (get_branches_for_service W soa_dir service).2 = Ok vb →
     (get_branches_for_service W soa_dir service).1
       = read_events (path_join soa_dir service) fnames ∧
     (∀ p, ReadConfig p ∈ (get_branches_for_service W soa_dir service).1 ↔
        ∃ f, f ∈ fnames ∧ str_in "marathon-" f = true ∧
             p = path_join (path_join soa_dir service) f) ∧
     (∀ k, k ∈ vb ↔
        ∃ f bs, f ∈ fnames ∧ str_in "marathon-" f = true ∧
          (get_branches_from_marathon_file W (path_join soa_dir service) f).2 = Ok bs ∧
          k ∈ bs)) ∧
  str_in "marathon-" "not-a-marathon-devc.yaml" = true ∧
  startswith "not-a-marathon-devc.yaml" "marathon-" = false.
Proof.
  intros Hls. rewrite service_branches_run, Hls.
  pose proof (files_loop_trace W (path_join soa_dir service) fnames ∅) as Hpre.
  split; [|split; [done|split; [|done]]].
  - intros p Hp. apply elem_of_read_events.
    destruct Hpre as [rest ->]. apply elem_of_app. by left.
  - intros vb Hvb.
    destruct (for_eachM _ fnames ∅) as [t r] eqn:E. cbn [fst snd] in *. subst r.
    destruct (files_loop_ok W _ _ _ _ _ E) as [-> Hk].
    split; [done|]. split; [apply elem_of_read_events|].
    intros k. rewrite Hk. split.
    + intros [Hin|?]; [by apply not_elem_of_empty in Hin | done].
    + by right.
Qed.

Lemma file_read_iff_name_contains_marathon_witness :
  os_listdir demo_world (path_join "/soa" "ghost") = Ok ["not-a-marathon-devc.yaml"] ∧
  (get_branches_for_service demo_world "/soa" "ghost").2 = Ok {[KStr "a"]} ∧
  (get_branches_for_service demo_world "/soa" "ghost").1
    = read_events (path_join "/soa" "ghost") ["not-a-marathon-devc.yaml"].
Proof.
  split; [reflexivity|]. split; [vm_compute; reflexivity|].
  apply (file_read_iff_name_contains_marathon demo_world "/soa" "ghost"
           ["not-a-marathon-devc.yaml"] eq_refl) with (vb := {[KStr "a"]}).
  vm_compute; reflexivity.
Defined.

(** ** Lines the parser cannot take *)

Lemma prefix_app p a b : String.prefix p a = true → String.prefix p (a +:+ b) = true.
Proof.
  revert a. induction p as [|c p IH]; intros a H; [by destruct (a +:+ b)|].
  destruct a as [|d a]; [done|]. rewrite append_cons. simpl in *.
  destruct (ascii_dec c d); [by apply IH | done].
Qed.

Lemma str_in_app_r sep a b : str_in sep (a +:+ b) = false → str_in sep b = false.
Proof.
  induction a as [|c a IH]; [done|]. rewrite append_cons. cbn [str_in].
  intros H. apply orb_false_iff in H as [_ H]. by apply IH.
Qed.

Lemma str_in_app_l sep a b : str_in sep (a +:+ b) = false → str_in sep a = false.
Proof.
  induction a as [|c a IH].
  - rewrite append_empty_l. intros H. destruct sep as [|x sep]; [by destruct b|done].
  - rewrite append_cons. cbn [str_in]. intros H.
    apply orb_false_iff in H as [Hp H]. apply orb_false_iff. split; [|by apply IH].
    destruct (String.prefix sep (String c a)) eqn:E; [|done].
    apply (prefix_app _ _ b) in E. rewrite append_cons in E. congruence.
Qed.

(** The pieces of a split on one character contain nothing the whole
    string does not. *)
Lemma split_char_pieces sep c cur s p :
  str_in sep (cur +:+ s) = false →
  p ∈ split_from (String c "") 0 cur s → str_in sep p = false.
Proof.
  revert cur. induction s as [|d s IH]; intros cur H Hp.
  - apply list_elem_of_singleton in Hp as ->. by rewrite append_empty_r in H.
  - cbn [split_from] in Hp. rewrite prefix_char in Hp.
    destruct (Ascii.eqb c d).
    + apply elem_of_cons in Hp as [->|Hp].
      * by apply str_in_app_l in H.
      * apply (IH ""); [|done]. rewrite append_empty_l.
        apply str_in_app_r in H. by apply (str_in_app_r sep (String d "")).
    + apply (IH (cur +:+ String d "")); [|done]. by rewrite append_assoc.
Qed.

Lemma index_elem_of {A} (xs : list A) i x : index xs i = Ok x → x ∈ xs.
Proof.
  unfold index. destruct (nth_error xs i) eqn:E; [|done]. intros [= <-].
  apply list_elem_of_In. by eapply nth_error_In.
Qed.

(** A line without a tab, or without [refs/heads/], cannot be parsed. *)
Lemma parse_branch_malformed line :
  str_in TAB line = false ∨ str_in "refs/heads/" line = false →
  parse_branch line = Raise IndexError.
Proof.
  intros [H|H]; unfold parse_branch.
  - by rewrite (split_absent _ _ H).
  - destruct (index (split line TAB) 0) as [head|e] eqn:E0; cbn [rbind];
      [|by rewrite (index_raise _ _ _ E0)].
    destruct (index (split line TAB) 1) as [ref|e] eqn:E1; cbn [rbind];
      [|by rewrite (index_raise _ _ _ E1)].
    apply index_elem_of in E1. unfold split in E1.
    apply (split_char_pieces "refs/heads/") in E1; [|done].
    by rewrite (split_absent _ _ E1).
Qed.

(** C9: when the remote query succeeds but a line of its output has no
    tab or no [refs/heads/] (the empty output of a remote without heads is
    one such line), the listing raises [IndexError]; the handler lets it
    through, nothing is logged, and the turn of the service, the main loop
    and the whole run end with that exception instead of a mapping. *)
Theorem malformed_listing_aborts_run
    (W : World) (soa_dir tmp_dir service out line : string)
    (vb : gset hkey) (before after : list string) :
  ls_remote W tmp_dir "-h" (get_git_url service) = Ok out →
  line ∈ split out NL →
  str_in TAB line = false ∨ str_in "refs/heads/" line = false →
  get_remote_branches_for_service W tmp_dir service
    = ([LsRemote (get_git_url service)], Raise IndexError) ∧
  (branches_of W soa_dir service = Ok vb → vb ≠ ∅ →
   (∀ m, (examine_service W soa_dir tmp_dir m service).2 = Raise IndexError) ∧
   (mkdtemp W = Ok tmp_dir →
    get_service_directories W soa_dir = Ok (before ++ service :: after)%list →
    is_ok (for_eachM (examine_service W soa_dir tmp_dir) before ∅).2 = true →
    (get_branch_mappings W soa_dir).2 = Raise IndexError)) ∧
  split "" NL = [""] ∧ str_in TAB "" = false.
Proof.
  intros Hls Hin Hbad.
  assert (get_remote_branches_for_service W tmp_dir service
          = ([LsRemote (get_git_url service)], Raise IndexError)) as Hrem.
  { rewrite remote_run, Hls. f_equal.
    apply (comprehension_raise_at _ _ line); [apply parse_branch_raise | done |].
    by apply parse_branch_malformed. }
  split; [done|]. split; [|done].
  intros Hvb Hne.
  assert (∀ m, (examine_service W soa_dir tmp_dir m service).2 = Raise IndexError) as Hturn.
  { intros m. rewrite examine_service_run. unfold branches_of in Hvb.
    destruct (get_branches_for_service W soa_dir service) as [t1 r]. cbn [snd] in Hvb.
    subst r. rewrite bool_decide_eq_false_2 by done. by rewrite Hrem. }
  split; [done|].
  intros Htmp Hdirs Hbefore. rewrite run_shape, Htmp, Hdirs.
  destruct (for_eachM _ before ∅) as [t1 [m1|e]] eqn:E1; [|done].
  specialize (Hturn m1).
  destruct (examine_service W soa_dir tmp_dir m1 service) as [t r] eqn:E.
  cbn [snd] in Hturn. subst r.
  by rewrite (for_eachM_raise _ _ _ _ _ _ _ _ _ E1 E).
Qed.

Lemma malformed_listing_aborts_run_witness :
  ls_remote bare_remote_world "/tmp/tmpq1w2e3" "-h" (get_git_url "fresh") = Ok "" ∧
  "" ∈ split "" NL ∧
  (str_in TAB "" = false ∨ str_in "refs/heads/" "" = false) ∧
  branches_of bare_remote_world "/soa" "fresh" = Ok {[KStr "devc"]} ∧
  get_branch_mappings bare_remote_world "/soa"
    = ([examining_event "fresh"; ReadConfig "/soa/fresh/marathon-devc.yaml";
        LsRemote "git@git.yelpcorp.com:services/fresh.git"], Raise IndexError) ∧
  (get_branch_mappings bare_remote_world "/soa").2 = Raise IndexError.
Proof.
  assert ("" ∈ split "" NL) as Hin by (vm_compute; left).
  assert (branches_of bare_remote_world "/soa" "fresh" = Ok {[KStr "devc"]}) as Hvb
    by (vm_compute; reflexivity).
  split; [reflexivity|]. split; [exact Hin|]. split; [left; reflexivity|].
  split; [exact Hvb|]. split; [vm_compute; reflexivity|].
  apply (malformed_listing_aborts_run bare_remote_world "/soa" "/tmp/tmpq1w2e3"
           "fresh" "" "" {[KStr "devc"]} [] [] eq_refl Hin (or_introl eq_refl)).
  - exact Hvb.
  - intros H. assert (KStr "devc" ∈ (∅ : gset hkey)) as Hc by (rewrite <- H; set_solver).
    by apply not_elem_of_empty in Hc.
  - reflexivity.
  - reflexivity.
  - reflexivity.
Defined.

(** ** A remote that cannot be queried *)

Lemma examine_service_same_collaborators W dirs soa_dir mygit m service :
  examine_service (with_service_directories W dirs) soa_dir mygit m service
  = examine_service W soa_dir mygit m service.
Proof. reflexivity. Qed.

Lemma main_loop_same_collaborators W dirs soa_dir mygit services m :
  for_eachM (examine_service (with_service_directories W dirs) soa_dir mygit) services m
  = for_eachM (examine_service W soa_dir mygit) services m.
Proof. reflexivity. Qed.

(** C1: when [git ls-remote] raises a command error for a service, the
    listing logs a warning naming the service and returns the empty list;
    the turn of the service completes with the dictionary unchanged and no
    insertion; the main loop and the whole run end as they would without
    that service directory; and a completed run holds exactly the entries
    of the other services. *)
Theorem failed_remote_query_is_isolated
    (W : World) (soa_dir tmp_dir service : string) (vb : gset hkey)
    (before after : list string) :
  ls_remote W tmp_dir "-h" (get_git_url service) = Raise GitCommandError →
  branches_of W soa_dir service = Ok vb → vb ≠ ∅ →
  get_remote_branches_for_service W tmp_dir service
    = ([LsRemote (get_git_url service); warning_event service], Ok []) ∧
  (∀ m, ∃ t, examine_service W soa_dir tmp_dir m service = (t, Ok m) ∧
             warning_event service ∈ t ∧ inserts_of t = []) ∧
  (∀ m, (for_eachM (examine_service W soa_dir tmp_dir) (before ++ service :: after) m).2
        = (for_eachM (examine_service W soa_dir tmp_dir) (before ++ after) m).2)%list ∧
  (mkdtemp W = Ok tmp_dir →
   get_service_directories W soa_dir = Ok (before ++ service :: after)%list →
   (get_branch_mappings W soa_dir).2
     = (get_branch_mappings (with_service_directories W (before ++ after)) soa_dir).2 ∧
   ∀ tr m, get_branch_mappings W soa_dir = (tr, Ok m) →
     warning_event service ∈ tr ∧
     inserts_of tr = concat (map (service_entries W soa_dir tmp_dir) (before ++ after)) ∧
     m = replay (concat (map (service_entries W soa_dir tmp_dir) (before ++ after))) ∅).
Proof.
  intros Hls Hvb Hne.
  assert (get_remote_branches_for_service W tmp_dir service
          = ([LsRemote (get_git_url service); warning_event service], Ok [])) as Hrem.
  { by rewrite remote_run, Hls. }
  assert (∀ m, ∃ t, examine_service W soa_dir tmp_dir m service = (t, Ok m) ∧
             warning_event service ∈ t ∧ inserts_of t = []) as Hturn.
  { intros m. rewrite examine_service_run. unfold branches_of in Hvb.
    pose proof (service_branches_reads W soa_dir service) as Hreads.
    apply reads_no_inserts in Hreads.
    destruct (get_branches_for_service W soa_dir service) as [t1 r].
    cbn [fst snd] in Hvb, Hreads. subst r.
    rewrite bool_decide_eq_false_2 by done. rewrite Hrem.
    eexists. split; [reflexivity|]. split.
    - apply elem_of_app. right. apply elem_of_app. left. set_solver.
    - change (examining_event service :: t1) with ([examining_event service] ++ t1)%list.
      rewrite !inserts_of_app, Hreads. done. }
  assert (service_entries W soa_dir tmp_dir service = []) as Hentries.
  { unfold service_entries, remote_of. by rewrite Hvb, Hrem. }
  split; [done|]. split; [done|]. split.
  - intros m. apply for_eachM_skip. intros m1.
    destruct (Hturn m1) as (t & -> & _). done.
  - intros Htmp Hdirs. split.
    + rewrite !run_shape. cbn [mkdtemp with_service_directories os_rmdir].
      rewrite Htmp, Hdirs.
      change (get_service_directories (with_service_directories W (before ++ after)) soa_dir)
        with (Ok (before ++ after)%list : result (list string)).
      cbn iota. rewrite main_loop_same_collaborators.
      pose proof (for_eachM_skip (examine_service W soa_dir tmp_dir) before after service ∅)
        as Hskip.
      specialize (Hskip ltac:(intros m1; by destruct (Hturn m1) as (t & -> & _))).
      destruct (for_eachM _ (before ++ service :: after)%list ∅) as [ta ra].
      destruct (for_eachM _ (before ++ after)%list ∅) as [tb rb].
      cbn [snd] in Hskip. subst ra. destruct rb as [mb|e]; [|done].
      by destruct (os_rmdir W tmp_dir) as [[]|[]].
    + intros tr m Hrun.
      destruct (run_ok_inv W _ _ _ Hrun) as (tmp' & services & t & Htmp' & Hdirs' & Hloop & Hins).
      rewrite Htmp in Htmp'. injection Htmp' as <-.
      rewrite Hdirs in Hdirs'. injection Hdirs' as <-.
      destruct (loop_ok W _ _ _ _ _ _ Hloop) as [Hi ->].
      rewrite map_app, concat_app in Hi. cbn [map concat] in Hi.
      rewrite Hentries, app_nil_l, <- concat_app, <- map_app in Hi.
      rewrite Hins, Hi. split; [|done].
      destruct (for_eachM_ok_inv _ _ service _ _ _ Hloop) as
        (l1 & l2 & s1 & s2 & t1 & tx & t2 & _ & Ht & _ & Hx & _).
      { apply elem_of_app. right. by left. }
      destruct (Hturn s1) as (tx' & Hx' & Hw & _). rewrite Hx in Hx'.
      injection Hx' as <- _.
      assert (warning_event service ∈ t) as Hwt.
      { rewrite Ht. apply elem_of_app. right. apply elem_of_app. by left. }
      revert Hrun. rewrite run_shape, Htmp, Hdirs, Hloop.
      destruct (os_rmdir W tmp_dir) as [[]|[]]; intros [= <-]; try done.
      apply elem_of_app. by left.
Qed.

Lemma elem_of_nonempty (x : hkey) (vb : gset hkey) : x ∈ vb → vb ≠ ∅.
Proof. intros Hx ->. by apply not_elem_of_empty in Hx. Qed.

Lemma failed_remote_query_is_isolated_witness :
  ls_remote demo_world "/tmp/tmpq1w2e3" "-h" (get_git_url "ghost") = Raise GitCommandError ∧
  branches_of demo_world "/soa" "ghost" = Ok {[KStr "a"]} ∧
  ({[KStr "a"]} : gset hkey) ≠ ∅ ∧
  get_remote_branches_for_service demo_world "/tmp/tmpq1w2e3" "ghost"
    = ([LsRemote (get_git_url "ghost"); warning_event "ghost"], Ok []).
Proof.
  assert (branches_of demo_world "/soa" "ghost" = Ok {[KStr "a"]}) as Hvb
    by (vm_compute; reflexivity).
  assert (({[KStr "a"]} : gset hkey) ≠ ∅) as Hne
    by (apply (elem_of_nonempty (KStr "a")); set_solver).
  split; [reflexivity|]. split; [exact Hvb|]. split; [exact Hne|].
  apply (failed_remote_query_is_isolated demo_world "/soa" "/tmp/tmpq1w2e3" "ghost"
           {[KStr "a"]} ["svc"; "pinned"] [] eq_refl Hvb Hne).
Defined.

(** ** A configuration file the reader rejects *)

(** C3, as the script has it: no handler stands between the reader and
    the main loop.  When the reader raises on a file whose name contains
    [marathon-], and the files listed before it were resolved, the
    exception leaves the file's resolution, the service's resolution (no
    set is returned, whatever the earlier files held, and nothing is
    logged) and the turn of the service; the main loop stops there and the
    run ends with that exception. *)
Theorem unparseable_file_aborts_run
    (W : World) (soa_dir service f : string) (l1 l2 : list string) (e : exn) :
  os_listdir W (path_join soa_dir service) = Ok (l1 ++ f :: l2)%list →
  str_in "marathon-" f = true →
  read_service_information W (path_join (path_join soa_dir service) f) = Raise e →
  is_ok (for_eachM (add_file W (path_join soa_dir service)) l1 ∅).2 = true →
  get_branches_from_marathon_file W (path_join soa_dir service) f
    = ([ReadConfig (path_join (path_join soa_dir service) f)], Raise e) ∧
  get_branches_for_service W soa_dir service
    = (read_events (path_join soa_dir service) (l1 ++ [f]), Raise e) ∧
  (∀ mygit m,
     examine_service W soa_dir mygit m service
     = (examining_event service :: read_events (path_join soa_dir service) (l1 ++ [f]),
        Raise e)) ∧
  (∀ tmp_dir before after,
     mkdtemp W = Ok tmp_dir →
     get_service_directories W soa_dir = Ok (before ++ service :: after)%list →
     is_ok (for_eachM (examine_service W soa_dir tmp_dir) before ∅).2 = true →
     (get_branch_mappings W soa_dir).2 = Raise e).
Proof.
  intros Hls Hf Hr H1.
  assert (get_branches_from_marathon_file W (path_join soa_dir service) f
          = ([ReadConfig (path_join (path_join soa_dir service) f)], Raise e)) as Hfile.
  { by rewrite file_run, Hr. }
  assert (get_branches_for_service W soa_dir service
          = (read_events (path_join soa_dir service) (l1 ++ [f]), Raise e)) as Hsvc.
  { rewrite service_branches_run, Hls. apply files_loop_raise; try done.
    by rewrite Hfile. }
  assert (∀ mygit m,
     examine_service W soa_dir mygit m service
     = (examining_event service :: read_events (path_join soa_dir service) (l1 ++ [f]),
        Raise e)) as Hturn.
  { intros mygit m. by rewrite examine_service_run, Hsvc. }
  split; [done|]. split; [done|]. split; [done|].
  intros tmp_dir before after Htmp Hdirs Hbefore.
  rewrite run_shape, Htmp, Hdirs.
  destruct (for_eachM _ before ∅) as [t1 [m1|e1]] eqn:E1; [|done].
  by rewrite (for_eachM_raise _ _ _ _ _ _ _ _ _ E1 (Hturn tmp_dir m1)).
Qed.

Lemma unparseable_file_aborts_run_witness :
  os_listdir broken_yaml_world (path_join "/soa" "svc")
    = Ok (["marathon-devc.yaml"] ++ "marathon-prod.yaml" :: [])%list ∧
  str_in "marathon-" "marathon-prod.yaml" = true ∧
  read_service_information broken_yaml_world
    (path_join (path_join "/soa" "svc") "marathon-prod.yaml") = Raise scanner_error ∧
  is_ok (for_eachM (add_file broken_yaml_world (path_join "/soa" "svc"))
           ["marathon-devc.yaml"] ∅).2 = true ∧
  get_branches_for_service broken_yaml_world "/soa" "svc"
    = (read_events (path_join "/soa" "svc") (["marathon-devc.yaml"] ++ ["marathon-prod.yaml"]),
       Raise scanner_error).
Proof.
  split; [reflexivity|]. split; [reflexivity|]. split; [reflexivity|].
  split; [vm_compute; reflexivity|].
  apply (unparseable_file_aborts_run broken_yaml_world "/soa" "svc" "marathon-prod.yaml"
           ["marathon-devc.yaml"] [] scanner_error); try reflexivity.
Defined.

(** C3 as the claim has it fails: the second file of the service cannot be
    parsed, the first holds the branch [release]; resolution returns no
    set at all, logs nothing, and the run ends with the reader's
    exception. *)
Lemma unparseable_file_counterexample :
  read_service_information broken_yaml_world "/soa/svc/marathon-prod.yaml"
    = Raise scanner_error ∧
  get_branches_from_marathon_file broken_yaml_world "/soa/svc" "marathon-devc.yaml"
    = ([ReadConfig "/soa/svc/marathon-devc.yaml"], Ok {[KStr "release"]}) ∧
  get_branches_for_service broken_yaml_world "/soa" "svc"
    = ([ReadConfig "/soa/svc/marathon-devc.yaml";
        ReadConfig "/soa/svc/marathon-prod.yaml"], Raise scanner_error) ∧
  ¬ (∃ vb, branches_of broken_yaml_world "/soa" "svc" = Ok vb ∧ KStr "release" ∈ vb) ∧
  get_branch_mappings broken_yaml_world "/soa"
    = ([Log INFO "Examining service %s" ["svc"];
        ReadConfig "/soa/svc/marathon-devc.yaml";
        ReadConfig "/soa/svc/marathon-prod.yaml"], Raise scanner_error).
Proof.
  split; [reflexivity|]. split; [vm_compute; reflexivity|].
  split; [vm_compute; reflexivity|]. split; [|vm_compute; reflexivity].
  intros (vb & H & _). vm_compute in H. discriminate.
Qed.

(** ** The dictionary of a completed run *)

Lemma elem_of_concat {A} (x : A) (ls : list (list A)) :
  x ∈ concat ls ↔ ∃ l, x ∈ l ∧ l ∈ ls.
Proof.
  induction ls as [|l ls IH]; simpl.
  - split; [by intros ?%elem_of_nil | by intros (l & _ & ?%elem_of_nil)].
  - rewrite elem_of_app, IH. split.
    + intros [?|(l' & ? & ?)]; [exists l; split; [done | by left]|].
      exists l'. split; [done | by right].
    + intros (l' & Hx & [->|?]%elem_of_cons); [by left|]. right. by exists l'.
Qed.

Lemma last_writes_to k v kvs :
  (k, v) ∈ kvs →
  ∃ kv, last (writes_to k kvs) = Some kv ∧ kv ∈ kvs ∧ kv.1 = k.
Proof.
  intros Hin. assert ((k, v) ∈ writes_to k kvs) as Hw.
  { by apply list_elem_of_filter. }
  destruct (last (writes_to k kvs)) as [kv|] eqn:E.
  - exists kv. split; [done|]. apply last_Some_elem_of in E.
    by apply list_elem_of_filter in E as [? ?].
  - apply last_None in E. rewrite E in Hw. by apply elem_of_nil in Hw.
Qed.

Lemma entry_in_service_entries W soa_dir mygit service vb refs hb :
  branches_of W soa_dir service = Ok vb → remote_of W mygit service = Ok refs →
  hb ∈ refs → KStr hb.2 ∈ vb →
  entry_of service hb ∈ service_entries W soa_dir mygit service.
Proof.
  intros Hvb Hrefs Hin Hb. unfold service_entries. rewrite Hvb, Hrefs.
  apply list_elem_of_fmap. exists hb. split; [done|].
  by apply list_elem_of_filter.
Qed.

Lemma service_entries_inv W soa_dir mygit service kv :
  kv ∈ service_entries W soa_dir mygit service →
  ∃ vb refs hb, branches_of W soa_dir service = Ok vb ∧
    remote_of W mygit service = Ok refs ∧ hb ∈ refs ∧ KStr hb.2 ∈ vb ∧
    kv = entry_of service hb.
Proof.
  unfold service_entries.
  destruct (branches_of W soa_dir service) as [vb|e]; [|by intros ?%elem_of_nil].
  destruct (remote_of W mygit service) as [refs|e]; [|by intros ?%elem_of_nil].
  intros Hin. apply list_elem_of_fmap in Hin as (hb & -> & Hin).
  apply list_elem_of_filter in Hin as [? ?]. by exists vb, refs, hb.
Qed.

(** C2, as the script has it: in a completed run, a remote head [(c, b)]
    of a service whose set contains [b] is inserted as
    ["svc:b" -> "svc:" ++ c[0:6]]; the final mapping holds under ["svc:b"]
    the value of the last insertion made under that key, which is
    ["svc:" ++ c[0:6]] whenever the insertions under that key agree on
    it. *)
Theorem tracked_remote_head_is_mapped
    (W : World) (soa_dir tmp_dir service c b : string) (services : list string)
    (vb : gset hkey) (refs : list (string * string))
    (tr : list event) (m : gmap string string) :
  get_branch_mappings W soa_dir = (tr, Ok m) →
  mkdtemp W = Ok tmp_dir →
  get_service_directories W soa_dir = Ok services →
  service ∈ services →
  branches_of W soa_dir service = Ok vb → KStr b ∈ vb →
  remote_of W tmp_dir service = Ok refs → (c, b) ∈ refs →
  (service +:+ ":" +:+ b, service +:+ ":" +:+ slice_to 6 c) ∈ inserts_of tr ∧
  (∃ kv, last (writes_to (service +:+ ":" +:+ b) (inserts_of tr)) = Some kv ∧
         m !! (service +:+ ":" +:+ b) = Some kv.2) ∧
  ((∀ v, (service +:+ ":" +:+ b, v) ∈ inserts_of tr →
         v = service +:+ ":" +:+ slice_to 6 c) →
   m !! (service +:+ ":" +:+ b) = Some (service +:+ ":" +:+ slice_to 6 c)).
Proof.
  intros Hrun Htmp Hdirs Hs Hvb Hb Hrefs Hin.
  destruct (run_ok_inv W _ _ _ Hrun) as (tmp' & services' & t & Htmp' & Hdirs' & Hloop & Hins).
  rewrite Htmp in Htmp'. injection Htmp' as <-.
  rewrite Hdirs in Hdirs'. injection Hdirs' as <-.
  destruct (loop_ok W _ _ _ _ _ _ Hloop) as [Hi ->]. rewrite Hins.
  assert ((service +:+ ":" +:+ b, service +:+ ":" +:+ slice_to 6 c) ∈ inserts_of t) as Hk.
  { rewrite Hi. apply elem_of_concat.
    exists (service_entries W soa_dir tmp_dir service). split.
    - by apply (entry_in_service_entries W soa_dir tmp_dir service vb refs (c, b)).
    - apply list_elem_of_fmap. by exists service. }
  split; [done|].
  destruct (last_writes_to _ _ _ Hk) as (kv & Hlast & Hkv & Hkey).
  assert (replay (inserts_of t) ∅ !! (service +:+ ":" +:+ b) = Some kv.2) as Hm.
  { by rewrite lookup_replay, Hlast. }
  split; [by exists kv|].
  intros Hagree. rewrite Hm. f_equal. apply Hagree.
  destruct kv as [k v]. simpl in *. by subst k.
Qed.

Lemma tracked_remote_head_is_mapped_witness :
  get_branch_mappings demo_world "/soa" = (demo_trace, Ok demo_mapping) ∧
  mkdtemp demo_world = Ok "/tmp/tmpq1w2e3" ∧
  get_service_directories demo_world "/soa" = Ok ["svc"; "pinned"; "ghost"] ∧
  "svc" ∈ ["svc"; "pinned"; "ghost"] ∧
  branches_of demo_world "/soa" "svc" = Ok {[KStr "release"; KStr "devc"]} ∧
  KStr "release" ∈ ({[KStr "release"; KStr "devc"]} : gset hkey) ∧
  remote_of demo_world "/tmp/tmpq1w2e3" "svc" = Ok demo_heads ∧
  ("abcdef0123456789", "release") ∈ demo_heads ∧
  demo_mapping !! ("svc" +:+ ":" +:+ "release")
    = Some ("svc" +:+ ":" +:+ slice_to 6 "abcdef0123456789").
Proof.
  assert (get_service_directories demo_world "/soa" = Ok ["svc"; "pinned"; "ghost"])
    as Hdirs by (vm_compute; reflexivity).
  assert (KStr "release" ∈ ({[KStr "release"; KStr "devc"]} : gset hkey)) as Hb
    by set_solver.
  assert ("svc" ∈ ["svc"; "pinned"; "ghost"]) as Hs by left.
  assert (("abcdef0123456789", "release") ∈ demo_heads) as Hin by left.
  pose proof (tracked_remote_head_is_mapped demo_world "/soa" "/tmp/tmpq1w2e3" "svc"
                "abcdef0123456789" "release" _ _ _ _ _
                demo_run eq_refl Hdirs Hs demo_branches Hb demo_remote Hin)
    as (_ & _ & Hm).
  repeat (split; [first [exact demo_run | exact demo_branches | exact demo_remote
                        | exact Hdirs | exact Hb | exact Hs | exact Hin
                        | reflexivity]|]).
  apply Hm. intros v Hv. vm_compute in Hv.
  apply elem_of_cons in Hv as [[= ->]|Hv]; [vm_compute; reflexivity|].
  apply elem_of_cons in Hv as [[=]|Hv]. by apply elem_of_nil in Hv.
Defined.

(** C2 as the claim has it fails: the set of [svc] contains [x/], its
    listing contains the pair of the first head and [x/], yet the final
    mapping holds the six characters of the second head under [svc:x/]. *)
Lemma tracked_remote_head_counterexample :
  branches_of twin_heads_world "/soa" "svc" = Ok {[KStr "x/"]} ∧
  remote_of twin_heads_world "/tmp/tmpq1w2e3" "svc"
    = Ok [("aaaaaaaaaaaaaaaa", "x/"); ("bbbbbbbbbbbbbbbb", "x/")] ∧
  ∃ m, (get_branch_mappings twin_heads_world "/soa").2 = Ok m ∧
       m !! "svc:x/" = Some "svc:bbbbbb" ∧
       m !! ("svc" +:+ ":" +:+ "x/") ≠ Some ("svc" +:+ ":" +:+ slice_to 6 "aaaaaaaaaaaaaaaa").
Proof.
  split; [vm_compute; reflexivity|]. split; [vm_compute; reflexivity|].
  eexists. split; [vm_compute; reflexivity|]. split; [vm_compute; reflexivity|].
  vm_compute. discriminate.
Qed.

(** Every insertion of a run, completed or not, is an entry of one of
    the service directories. *)
Lemma run_inserts_from W soa_dir tmp_dir kv :
  mkdtemp W = Ok tmp_dir →
  kv ∈ inserts_of (get_branch_mappings W soa_dir).1 →
  ∃ services service,
    get_service_directories W soa_dir = Ok services ∧ service ∈ services ∧
    kv ∈ service_entries W soa_dir tmp_dir service.
Proof.
  intros Htmp. rewrite run_shape, Htmp.
  destruct (get_service_directories W soa_dir) as [services|e];
    [|by intros ?%elem_of_nil].
  pose proof (loop_inserts_from W soa_dir tmp_dir services ∅ kv) as Hloop.
  destruct (for_eachM _ services ∅) as [t [m|e]]; cbn [fst] in *.
  - intros Hin. assert (kv ∈ inserts_of t) as Hin'.
    { destruct (os_rmdir W tmp_dir) as [[]|[]]; cbn [fst] in Hin; try done.
      by rewrite inserts_of_app, app_nil_r in Hin. }
    destruct (Hloop Hin') as (s & ? & ?). by exists services, s.
  - intros Hin. destruct (Hloop Hin) as (s & ? & ?). by exists services, s.
Qed.

(** C6: a remote head whose name is not in the set of its service gives
    rise to no insertion.  While the service is examined nothing is
    inserted under ["svc:" ++ name]; every insertion of a run, and so every
    entry of its final mapping, is ["svc:b" -> "svc:" ++ c[0:6]] for a
    head [(c, b)] of a service [svc] whose set contains [b]; and the final
    mapping has no entry under ["svc:" ++ name] unless another service
    directory contributes an entry spelled the same. *)
Theorem untracked_remote_head_is_not_mapped
    (W : World) (soa_dir tmp_dir : string) :
  mkdtemp W = Ok tmp_dir →
  (∀ service vb refs c b m v,
     branches_of W soa_dir service = Ok vb →
     remote_of W tmp_dir service = Ok refs →
     (c, b) ∈ refs → KStr b ∉ vb →
     (service +:+ ":" +:+ b, v)
       ∉ inserts_of (examine_service W soa_dir tmp_dir m service).1) ∧
  (∀ kv, kv ∈ inserts_of (get_branch_mappings W soa_dir).1 →
     ∃ services service vb refs hb,
       get_service_directories W soa_dir = Ok services ∧ service ∈ services ∧
       branches_of W soa_dir service = Ok vb ∧
       remote_of W tmp_dir service = Ok refs ∧
       hb ∈ refs ∧ KStr hb.2 ∈ vb ∧
       kv = (service +:+ ":" +:+ hb.2, service +:+ ":" +:+ slice_to 6 hb.1)) ∧
  (∀ m k v, (get_branch_mappings W soa_dir).2 = Ok m → m !! k = Some v →
     ∃ services service vb refs hb,
       get_service_directories W soa_dir = Ok services ∧ service ∈ services ∧
       branches_of W soa_dir service = Ok vb ∧
       remote_of W tmp_dir service = Ok refs ∧
       hb ∈ refs ∧ KStr hb.2 ∈ vb ∧
       k = service +:+ ":" +:+ hb.2 ∧ v = service +:+ ":" +:+ slice_to 6 hb.1) ∧
  (∀ services service vb refs c b m,
     get_service_directories W soa_dir = Ok services →
     branches_of W soa_dir service = Ok vb →
     remote_of W tmp_dir service = Ok refs →
     (c, b) ∈ refs → KStr b ∉ vb →
     (get_branch_mappings W soa_dir).2 = Ok m →
     (∀ other kv, other ∈ services → other ≠ service →
        kv ∈ service_entries W soa_dir tmp_dir other →
        kv.1 ≠ service +:+ ":" +:+ b) →
     m !! (service +:+ ":" +:+ b) = None).
Proof.
  intros Htmp.
  assert (∀ kv, kv ∈ inserts_of (get_branch_mappings W soa_dir).1 →
     ∃ services service vb refs hb,
       get_service_directories W soa_dir = Ok services ∧ service ∈ services ∧
       branches_of W soa_dir service = Ok vb ∧
       remote_of W tmp_dir service = Ok refs ∧
       hb ∈ refs ∧ KStr hb.2 ∈ vb ∧
       kv = (service +:+ ":" +:+ hb.2, service +:+ ":" +:+ slice_to 6 hb.1)) as Hall.
  { intros kv Hin.
    destruct (run_inserts_from W soa_dir tmp_dir kv Htmp Hin) as (services & s & ? & ? & He).
    apply service_entries_inv in He as (vb & refs & hb & ? & ? & ? & ? & ->).
    by exists services, s, vb, refs, hb. }
  assert (∀ service vb b kv,
     branches_of W soa_dir service = Ok vb → KStr b ∉ vb →
     kv ∈ service_entries W soa_dir tmp_dir service →
     kv.1 ≠ service +:+ ":" +:+ b) as Hown.
  { intros service vb b kv Hvb Hb Hx Hk.
    apply service_entries_inv in Hx as (vb' & refs' & hb & Hvb' & _ & _ & Hhb & ->).
    rewrite Hvb in Hvb'. injection Hvb' as <-. simpl in Hk.
    apply (inj (String.app service)) in Hk.
    apply (inj (String.app ":")) in Hk. by subst b. }
  assert (∀ m k v, (get_branch_mappings W soa_dir).2 = Ok m → m !! k = Some v →
     ∃ kv, kv ∈ inserts_of (get_branch_mappings W soa_dir).1 ∧ kv = (k, v)) as Hlookup.
  { intros m k v Hm Hk.
    destruct (get_branch_mappings W soa_dir) as [tr r] eqn:Hrun. cbn [fst snd] in *.
    subst r.
    destruct (run_ok_inv W _ _ _ Hrun) as (tmp' & services & t & _ & _ & Hloop & Hins).
    destruct (loop_ok W _ _ _ _ _ _ Hloop) as [_ Hrep].
    rewrite Hrep, lookup_replay, <- Hins in Hk.
    destruct (last (writes_to k (inserts_of tr))) as [kv|] eqn:Hlast; [|done].
    injection Hk as <-. apply last_Some_elem_of in Hlast.
    apply list_elem_of_filter in Hlast as [Hkey Hin].
    exists kv. split; [done|]. destruct kv; simpl in *. by subst. }
  split; [|split; [done|split]].
  - intros service vb refs c b m v Hvb Hrefs Hin Hb Hx.
    assert (inserts_of (examine_service W soa_dir tmp_dir m service).1
            = service_entries W soa_dir tmp_dir service) as Hi.
    { destruct (examine_service_inserts W soa_dir tmp_dir m service)
        as [(e & He & _)|[(e & vb' & _ & _ & He & _)|(_ & Hi & _)]]; [| |done];
        congruence. }
    rewrite Hi in Hx. by apply (Hown service vb b _ Hvb Hb Hx).
  - intros m k v Hm Hk.
    destruct (Hlookup m k v Hm Hk) as (kv & Hin & ->).
    destruct (Hall _ Hin) as (services & s & vb & refs & hb & ? & ? & ? & ? & ? & ? & [= -> ->]).
    by exists services, s, vb, refs, hb.
  - intros services service vb refs c b m Hdirs Hvb Hrefs Hin Hb Hm Hothers.
    destruct (m !! (service +:+ ":" +:+ b)) as [v|] eqn:Hk; [|done].
    destruct (Hlookup m _ v Hm Hk) as (kv & Hkv & ->).
    destruct (run_inserts_from W soa_dir tmp_dir _ Htmp Hkv)
      as (services' & other & Hdirs' & Hother & He).
    rewrite Hdirs in Hdirs'. injection Hdirs' as <-.
    destruct (decide (other = service)) as [->|Hne].
    + by destruct (Hown service vb b _ Hvb Hb He).
    + by destruct (Hothers other _ Hother Hne He).
Qed.

Lemma untracked_remote_head_is_not_mapped_witness :
  mkdtemp demo_world = Ok "/tmp/tmpq1w2e3" ∧
  branches_of demo_world "/soa" "svc" = Ok {[KStr "release"; KStr "devc"]} ∧
  remote_of demo_world "/tmp/tmpq1w2e3" "svc" = Ok demo_heads ∧
  ("fedcba9876543210", "master") ∈ demo_heads ∧
  (KStr "master" ∉ ({[KStr "release"; KStr "devc"]} : gset hkey)) ∧
  (∀ v, ("svc" +:+ ":" +:+ "master", v)
     ∉ inserts_of (examine_service demo_world "/soa" "/tmp/tmpq1w2e3" ∅ "svc").1).
Proof.
  pose proof (untracked_remote_head_is_not_mapped demo_world "/soa" "/tmp/tmpq1w2e3"
                eq_refl) as (H & _ & _).
  assert (("fedcba9876543210", "master") ∈ demo_heads) as Hin by (right; right; left).
  assert (KStr "master" ∉ ({[KStr "release"; KStr "devc"]} : gset hkey)) as Hb
    by (intros [[=]%elem_of_singleton|[=]%elem_of_singleton]%elem_of_union).
  split; [reflexivity|]. split; [exact demo_branches|]. split; [exact demo_remote|].
  split; [exact Hin|]. split; [exact Hb|].
  intros v.
  exact (H "svc" _ _ "fedcba9876543210" "master" ∅ v demo_branches demo_remote Hin Hb).
Defined.

Lemma last_writes_to_app k v l after :
  (∀ v', (k, v') ∉ after) →
  last (writes_to k (l ++ (k, v) :: after)) = Some (k, v).
Proof.
  intros Hafter. unfold writes_to. rewrite filter_app, filter_cons.
  rewrite decide_True by done.
  destruct (filter (λ kv : string * string, kv.1 = k) after) as [|[k' v'] r] eqn:E.
  - apply last_snoc.
  - assert ((k', v') ∈ filter (λ kv : string * string, kv.1 = k) after) as Hin
      by (rewrite E; left).
    apply list_elem_of_filter in Hin as [Hk Hin]. simpl in Hk. subst k'.
    by destruct (Hafter v').
Qed.

(** C7: insertions under one key overwrite one another and nothing else.
    An insertion never raises; it binds its key whatever was bound before
    and leaves every other key as it was; and the final mapping of a
    completed run holds, under every key, the value of the last insertion
    made under that key, and nothing under a key that was never
    inserted. *)
Theorem later_insertion_overwrites
    (W : World) (soa_dir : string) (tr : list event) (m : gmap string string) :
  get_branch_mappings W soa_dir = (tr, Ok m) →
  (∀ service m0 hb,
     add_mapping service m0 hb
     = ([mapping_event service hb],
        Ok (<[branch_alias_of service hb := docker_image_of service hb]> m0))) ∧
  (∀ (m0 : gmap string string) k v,
     <[k := v]> m0 !! k = Some v ∧ ∀ k', k' ≠ k → <[k := v]> m0 !! k' = m0 !! k') ∧
  (∀ k, m !! k = match last (writes_to k (inserts_of tr)) with
                 | Some kv => Some kv.2
                 | None => None
                 end) ∧
  (∀ k v1 v2 before between after,
     inserts_of tr = (before ++ (k, v1) :: between ++ (k, v2) :: after)%list →
     (∀ v, (k, v) ∉ after) →
     m !! k = Some v2).
Proof.
  intros Hrun.
  destruct (run_ok_inv W _ _ _ Hrun) as (tmp_dir & services & t & _ & _ & Hloop & Hins).
  destruct (loop_ok W _ _ _ _ _ _ Hloop) as [_ Hrep].
  assert (∀ k, m !! k = match last (writes_to k (inserts_of tr)) with
                 | Some kv => Some kv.2
                 | None => None
                 end) as Hlast.
  { intros k. rewrite Hrep, lookup_replay, Hins. by rewrite lookup_empty. }
  split; [done|]. split; [|split; [done|]].
  - intros m0 k v. split; [apply lookup_insert_eq|].
    intros k' Hne. by apply lookup_insert_ne.
  - intros k v1 v2 before between after Hi Hafter.
    rewrite Hlast, Hi.
    change (before ++ (k, v1) :: between ++ (k, v2) :: after)%list
      with (before ++ ((k, v1) :: between) ++ (k, v2) :: after)%list.
    rewrite app_assoc, (last_writes_to_app k v2 _ after Hafter). done.
Qed.

Lemma later_insertion_overwrites_witness :
  get_branch_mappings twin_heads_world "/soa" = (twin_heads_trace, Ok twin_heads_mapping) ∧
  inserts_of twin_heads_trace
    = ([] ++ ("svc:x/", "svc:aaaaaa") :: [] ++ ("svc:x/", "svc:bbbbbb") :: [])%list ∧
  (∀ v : string, ("svc:x/", v) ∉ ([] : list (string * string))) ∧
  twin_heads_mapping !! "svc:x/" = Some "svc:bbbbbb".
Proof.
  pose proof (later_insertion_overwrites twin_heads_world "/soa" _ _ twin_heads_run)
    as (_ & _ & _ & H).
  assert (inserts_of twin_heads_trace
    = ([] ++ ("svc:x/", "svc:aaaaaa") :: [] ++ ("svc:x/", "svc:bbbbbb") :: [])%list) as Hi
    by (vm_compute; reflexivity).
  assert (∀ v : string, ("svc:x/", v) ∉ ([] : list (string * string))) as Hafter by (intros v Hv; inversion Hv).
  split; [exact twin_heads_run|]. split; [exact Hi|]. split; [exact Hafter|].
  exact (H "svc:x/" "svc:aaaaaa" "svc:bbbbbb" [] [] [] Hi Hafter).
Defined.

(** ** Repository addresses *)

Lemma length_append (a b : string) :
  String.length (a +:+ b) = String.length a + String.length b.
Proof. induction a as [|c a IH]; [done|]. rewrite append_cons. simpl. by rewrite IH. Qed.

Lemma append_inv_tail (a b c : string) : a +:+ c = b +:+ c → a = b.
Proof.
  revert b. induction a as [|x a IH]; intros [|y b] H.
  - done.
  - apply (f_equal String.length) in H. rewrite append_empty_l, append_cons in H.
    simpl in H. rewrite length_append in H. lia.
  - apply (f_equal String.length) in H. rewrite append_empty_l, append_cons in H.
    simpl in H. rewrite length_append in H. lia.
  - rewrite !append_cons in H. injection H as -> H. f_equal. by apply IH.
Qed.

(** X1: two services have the same repository address only if they have
    the same name. *)
Theorem get_git_url_injective (service1 service2 : string) :
  get_git_url service1 = get_git_url service2 → service1 = service2.
Proof.
  unfold get_git_url. intros H.
  apply (inj (String.app "git@git.yelpcorp.com:services/")) in H.
  by apply append_inv_tail in H.
Qed.

Lemma get_git_url_injective_witness :
  get_git_url "svc" = get_git_url ("s" +:+ "vc") ∧ "svc" = "s" +:+ "vc".
Proof.
  split; [reflexivity|]. apply get_git_url_injective. reflexivity.
Defined.

(** ** Parsing what git prints *)

Lemma str_in_char_app c a b :
  str_in (String c "") (a +:+ b) = str_in (String c "") a || str_in (String c "") b.
Proof.
  induction a as [|d a IH].
  - rewrite append_empty_l. by destruct b.
  - rewrite append_cons, !str_in_char_cons, IH. by rewrite orb_assoc.
Qed.

Lemma prefix_self sep b : String.prefix sep (sep +:+ b) = true.
Proof.
  induction sep as [|c sep IH]; [by destruct b|].
  rewrite append_cons. simpl. by destruct (ascii_dec c c).
Qed.

(** Passing over the characters of a matched separator. *)
Lemma split_from_skip sep cur a b :
  split_from sep (String.length a) cur (a +:+ b) = split_from sep 0 cur b.
Proof.
  induction a as [|c a IH]; [done|]. by rewrite append_cons.
Qed.

(** A string that starts with the separator. *)
Lemma split_from_sep_first sep cur b :
  sep ≠ "" → split_from sep 0 cur (sep +:+ b) = cur :: split_from sep 0 "" b.
Proof.
  intros Hne. pose proof (prefix_self sep b) as Hp.
  destruct sep as [|c sep]; [done|]. rewrite append_cons in *.
  cbn [split_from]. rewrite Hp. f_equal.
  replace (String.length (String c sep) - 1) with (String.length sep) by (simpl; lia).
  apply split_from_skip.
Qed.

Lemma append_char c (r : string) : String c "" +:+ r = String c r.
Proof. reflexivity. Qed.

(** Splitting lines joined by newlines gives the lines back. *)
Lemma split_join_lines lines :
  lines ≠ [] → Forall (λ l, str_in NL l = false) lines →
  split (join_lines lines) NL = lines.
Proof.
  intros Hne Hall. induction Hall as [|l ls Hl Hls IH]; [done|].
  destruct ls as [|l' ls].
  - by apply split_absent.
  - change (join_lines (l :: l' :: ls)) with (l +:+ NL +:+ join_lines (l' :: ls)).
    unfold split, NL in *. rewrite append_char, (split_char_second _ l _ "" Hl).
    by rewrite append_empty_l, IH.
Qed.

(** The line of a plain head is parsed to that head. *)
Lemma parse_head_line hb : plain_head hb → parse_branch (head_line hb) = Ok hb.
Proof.
  intros (Hh & _ & Hb & _ & Hr). destruct hb as [h b]. cbn [fst snd] in *.
  unfold parse_branch, head_line, split, TAB in *. cbn [fst snd].
  rewrite append_char, (split_char_second _ h _ "" Hh), append_empty_l.
  assert (str_in (String (ascii_of_nat 9) "") ("refs/heads/" +:+ b) = false) as Hb'.
  { rewrite str_in_char_app, Hb. done. }
  rewrite (split_from_absent _ "" _ Hb'), append_empty_l.
  cbn [index nth_error rbind].
  rewrite (split_from_sep_first "refs/heads/" "" b) by done.
  by rewrite (split_from_absent _ "" _ Hr).
Qed.

Lemma head_line_no_newline hb : plain_head hb → str_in NL (head_line hb) = false.
Proof.
  intros (_ & Hh & _ & Hb & _). unfold head_line, NL in *.
  rewrite !str_in_char_app, Hh, Hb. done.
Qed.

Lemma comprehension_ok {A B} (f : A → result B) (g : B → A) (ys : list B) :
  (∀ y, y ∈ ys → f (g y) = Ok y) → comprehension f (map g ys) = Ok ys.
Proof.
  induction ys as [|y ys IH]; intros H; [done|]. simpl.
  rewrite (H y) by left. simpl. rewrite IH; [done|].
  intros y' Hy'. apply H. by right.
Qed.

(** X2: a remote that prints one line [<commit> TAB refs/heads/<name>] per
    head, with at least one head and plain commits and names, is listed
    exactly: the heads come back as printed, in order, and nothing is
    logged. *)
Theorem plain_listing_is_parsed_exactly
    (W : World) (mygit service : string) (refs : list (string * string)) :
  refs ≠ [] →
  Forall plain_head refs →
  ls_remote W mygit "-h" (get_git_url service) = Ok (join_lines (map head_line refs)) →
  get_remote_branches_for_service W mygit service
    = ([LsRemote (get_git_url service)], Ok refs).
Proof.
  intros Hne Hall Hls. rewrite remote_run, Hls. f_equal.
  rewrite split_join_lines.
  - apply comprehension_ok. intros hb Hin. apply parse_head_line.
    by apply (proj1 (Forall_forall _ _) Hall).
  - by destruct refs.
  - apply Forall_forall. intros l Hl. apply list_elem_of_fmap in Hl as (hb & -> & Hin).
    apply head_line_no_newline. by apply (proj1 (Forall_forall _ _) Hall).
Qed.

Lemma demo_heads_plain : Forall plain_head demo_heads.
Proof. repeat constructor. Qed.

Lemma demo_listing_joined :
  ls_remote demo_world "/tmp/tmpq1w2e3" "-h" (get_git_url "svc")
  = Ok (join_lines (map head_line demo_heads)).
Proof. vm_compute. reflexivity. Qed.

Lemma plain_listing_is_parsed_exactly_witness :
  demo_heads ≠ [] ∧ Forall plain_head demo_heads ∧
  ls_remote demo_world "/tmp/tmpq1w2e3" "-h" (get_git_url "svc")
    = Ok (join_lines (map head_line demo_heads)) ∧
  get_remote_branches_for_service demo_world "/tmp/tmpq1w2e3" "svc"
    = ([LsRemote (get_git_url "svc")], Ok demo_heads).
Proof.
  assert (demo_heads ≠ []) as Hne by discriminate.
  split; [exact Hne|]. split; [exact demo_heads_plain|].
  split; [exact demo_listing_joined|].
  exact (plain_listing_is_parsed_exactly demo_world "/tmp/tmpq1w2e3" "svc" demo_heads
           Hne demo_heads_plain demo_listing_joined).
Defined.

(** ** Exceptions the script does not handle *)

(** A turn that raises, after turns that completed, ends the run. *)
Lemma run_raise_at W soa_dir tmp_dir service before after e :
  mkdtemp W = Ok tmp_dir →
  get_service_directories W soa_dir = Ok (before ++ service :: after)%list →
  is_ok (for_eachM (examine_service W soa_dir tmp_dir) before ∅).2 = true →
  (∀ m, (examine_service W soa_dir tmp_dir m service).2 = Raise e) →
  (get_branch_mappings W soa_dir).2 = Raise e.
Proof.
  intros Htmp Hdirs Hbefore Hturn. rewrite run_shape, Htmp, Hdirs.
  destruct (for_eachM _ before ∅) as [t1 [m1|e1]] eqn:E1; [|done].
  specialize (Hturn m1).
  destruct (examine_service W soa_dir tmp_dir m1 service) as [t r] eqn:E.
  cbn [snd] in Hturn. subst r.
  by rewrite (for_eachM_raise _ _ _ _ _ _ _ _ _ E1 E).
Qed.

(** X3: the handler of the remote listing catches command errors only.
    Any other exception of the git client leaves the listing as it came,
    without a warning, and ends the turn of the service and the run. *)
Theorem other_git_exception_aborts_run
    (W : World) (soa_dir tmp_dir service : string) (e : exn)
    (vb : gset hkey) (before after : list string) :
  ls_remote W tmp_dir "-h" (get_git_url service) = Raise e →
  e ≠ GitCommandError →
  get_remote_branches_for_service W tmp_dir service
    = ([LsRemote (get_git_url service)], Raise e) ∧
  (branches_of W soa_dir service = Ok vb → vb ≠ ∅ →
   (∀ m, (examine_service W soa_dir tmp_dir m service).2 = Raise e) ∧
   (mkdtemp W = Ok tmp_dir →
    get_service_directories W soa_dir = Ok (before ++ service :: after)%list →
    is_ok (for_eachM (examine_service W soa_dir tmp_dir) before ∅).2 = true →
    (get_branch_mappings W soa_dir).2 = Raise e)).
Proof.
  intros Hls Hne.
  assert (get_remote_branches_for_service W tmp_dir service
          = ([LsRemote (get_git_url service)], Raise e)) as Hrem.
  { rewrite remote_run, Hls. by destruct e. }
  split; [done|]. intros Hvb Hvbne.
  assert (∀ m, (examine_service W soa_dir tmp_dir m service).2 = Raise e) as Hturn.
  { intros m. rewrite examine_service_run. unfold branches_of in Hvb.
    destruct (get_branches_for_service W soa_dir service) as [t1 r]. cbn [snd] in Hvb.
    subst r. rewrite bool_decide_eq_false_2 by done. by rewrite Hrem. }
  split; [done|]. intros Htmp Hdirs Hbefore. by eapply run_raise_at.
Qed.

Lemma no_git_branches : branches_of no_git_world "/soa" "svc" = Ok {[KStr "devc"]}.
Proof. vm_compute. reflexivity. Qed.

Lemma other_git_exception_aborts_run_witness :
  ls_remote no_git_world "/tmp/tmpq1w2e3" "-h" (get_git_url "svc") = Raise OSError ∧
  OSError ≠ GitCommandError ∧
  branches_of no_git_world "/soa" "svc" = Ok {[KStr "devc"]} ∧
  ({[KStr "devc"]} : gset hkey) ≠ ∅ ∧
  (get_branch_mappings no_git_world "/soa").2 = Raise OSError.
Proof.
  assert (OSError ≠ GitCommandError) as Hne by discriminate.
  assert (({[KStr "devc"]} : gset hkey) ≠ ∅) as Hvb
    by (apply (elem_of_nonempty (KStr "devc")); apply elem_of_singleton; reflexivity).
  destruct (other_git_exception_aborts_run no_git_world "/soa" "/tmp/tmpq1w2e3" "svc"
              OSError {[KStr "devc"]} [] [] eq_refl Hne) as [_ H].
  destruct (H no_git_branches Hvb) as [_ Hrun].
  repeat (split; [first [reflexivity | exact Hne | exact no_git_branches | exact Hvb]|]).
  apply Hrun; reflexivity.
Defined.

(** ** Services without branches *)

Lemma no_marathon_files W working_dir fnames vb :
  Forall (λ f, str_in "marathon-" f = false) fnames →
  for_eachM (add_file W working_dir) fnames vb = ([], Ok vb).
Proof.
  induction 1 as [|f fnames Hf _ IH]; [done|].
  cbn [for_eachM]. rewrite add_file_run, Hf. simpl. by rewrite IH.
Qed.

(** X4: a service whose set of branches is empty is passed over: its
    turn reads the configuration files, logs that the service has no
    branches, queries no remote and returns the dictionary as it was.  A
    directory without any file whose name contains [marathon-] is such a
    service, and nothing of it is read. *)
Theorem service_without_branches_is_passed_over
    (W : World) (soa_dir mygit service : string) (m : gmap string string) :
  branches_of W soa_dir service = Ok ∅ →
  examine_service W soa_dir mygit m service
    = ((examining_event service :: (get_branches_for_service W soa_dir service).1)
         ++ [no_branches_event service], Ok m)%list ∧
  (∀ url, LsRemote url ∉ (examine_service W soa_dir mygit m service).1) ∧
  (∀ fnames,
     os_listdir W (path_join soa_dir service) = Ok fnames →
     Forall (λ f, str_in "marathon-" f = false) fnames →
     examine_service W soa_dir mygit m service
       = ([examining_event service; no_branches_event service], Ok m)).
Proof.
  intros Hvb. unfold branches_of in Hvb.
  pose proof (service_branches_reads W soa_dir service) as Hreads.
  assert (examine_service W soa_dir mygit m service
    = ((examining_event service :: (get_branches_for_service W soa_dir service).1)
         ++ [no_branches_event service], Ok m)%list) as Hturn.
  { rewrite examine_service_run.
    destruct (get_branches_for_service W soa_dir service) as [t1 r]. cbn [fst snd] in *.
    subst r. by rewrite bool_decide_eq_true_2. }
  split; [done|]. split.
  - intros url. rewrite Hturn. cbn [fst]. intros Hin.
    apply elem_of_app in Hin as [Hin|Hin].
    + apply elem_of_cons in Hin as [?|Hin]; [done|].
      apply (proj1 (Forall_forall _ _) Hreads) in Hin. done.
    + apply list_elem_of_singleton in Hin. done.
  - intros fnames Hls Hnone. rewrite Hturn, service_branches_run, Hls.
    by rewrite no_marathon_files.
Qed.

Lemma pinned_branches : branches_of demo_world "/soa" "pinned" = Ok ∅.
Proof. vm_compute. reflexivity. Qed.

Lemma service_without_branches_is_passed_over_witness :
  branches_of demo_world "/soa" "pinned" = Ok ∅ ∧
  ∀ url, LsRemote url ∉ (examine_service demo_world "/soa" "/tmp/tmpq1w2e3" ∅ "pinned").1.
Proof.
  split; [exact pinned_branches|].
  apply (service_without_branches_is_passed_over demo_world "/soa" "/tmp/tmpq1w2e3"
           "pinned" ∅ pinned_branches).
Defined.

(** ** The scratch directory *)

(** X7: when the scratch directory cannot be removed after the main loop,
    an [OSError] is logged as an error and the mapping is still returned;
    any other exception of the removal ends the run without a mapping; and
    when the main loop raises, the run ends with its exception whatever
    the removal would do. *)
Theorem failed_rmdir_keeps_mapping
    (W : World) (soa_dir tmp_dir : string) (services : list string) :
  mkdtemp W = Ok tmp_dir →
  get_service_directories W soa_dir = Ok services →
  (∀ t m, for_eachM (examine_service W soa_dir tmp_dir) services ∅ = (t, Ok m) →
     (os_rmdir W tmp_dir = Raise OSError →
      get_branch_mappings W soa_dir
        = ((t ++ [Log ERROR "Failed to remove temporary directory %s" [tmp_dir]])%list,
           Ok m)) ∧
     (∀ e, os_rmdir W tmp_dir = Raise e → e ≠ OSError →
      get_branch_mappings W soa_dir = (t, Raise e))) ∧
  (∀ t e, for_eachM (examine_service W soa_dir tmp_dir) services ∅ = (t, Raise e) →
     get_branch_mappings W soa_dir = (t, Raise e)).
Proof.
  intros Htmp Hdirs. split.
  - intros t m Hloop. split.
    + intros Hrm. by rewrite run_shape, Htmp, Hdirs, Hloop, Hrm.
    + intros e Hrm Hne. rewrite run_shape, Htmp, Hdirs, Hloop, Hrm. by destruct e.
  - intros t e Hloop. by rewrite run_shape, Htmp, Hdirs, Hloop.
Qed.

Lemma sticky_tmp_loop :
  for_eachM (examine_service sticky_tmp_world "/soa" "/tmp/tmpq1w2e3")
    ["svc"; "pinned"; "ghost"] ∅ = (demo_trace, Ok demo_mapping).
Proof. vm_compute. reflexivity. Qed.

Lemma failed_rmdir_keeps_mapping_witness :
  mkdtemp sticky_tmp_world = Ok "/tmp/tmpq1w2e3" ∧
  get_service_directories sticky_tmp_world "/soa" = Ok ["svc"; "pinned"; "ghost"] ∧
  os_rmdir sticky_tmp_world "/tmp/tmpq1w2e3" = Raise OSError ∧
  get_branch_mappings sticky_tmp_world "/soa"
    = ((demo_trace ++ [rmdir_event "/tmp/tmpq1w2e3"])%list, Ok demo_mapping).
Proof.
  assert (get_service_directories sticky_tmp_world "/soa" = Ok ["svc"; "pinned"; "ghost"])
    as Hdirs by (vm_compute; reflexivity).
  split; [reflexivity|]. split; [exact Hdirs|]. split; [reflexivity|].
  destruct (failed_rmdir_keeps_mapping sticky_tmp_world "/soa" "/tmp/tmpq1w2e3"
              _ eq_refl Hdirs) as [H _].
  destruct (H _ _ sticky_tmp_loop) as [H1 _].
  exact (H1 eq_refl).
Defined.

(** ** Instances with a branch of their own, and instances that raise *)

(** An instance whose target branch is truthy and hashable puts its key
    in the set of its file and, through it, in the set of the service. *)
Lemma contributing_instance W soa_dir service filename config instance inst tb k :
  read_service_information W (path_join (path_join soa_dir service) filename)
    = Ok config →
  config !! instance = Some inst →
  target_branch filename inst = Ok tb → truthy tb = true → hash_key tb = Ok k →
  (∀ vb, (get_branches_from_marathon_file W (path_join soa_dir service) filename).2
         = Ok vb → k ∈ vb) ∧
  (∀ fnames vb,
     os_listdir W (path_join soa_dir service) = Ok fnames →
     filename ∈ fnames → str_in "marathon-" filename = true →
     branches_of W soa_dir service = Ok vb → k ∈ vb).
Proof.
  intros Hr Hi Htb Ht Hk.
  assert (∀ vb, (get_branches_from_marathon_file W (path_join soa_dir service) filename).2
         = Ok vb → k ∈ vb) as Hfile.
  { intros vb Hvb. apply (file_branches W _ _ _ _ Hr Hvb). by exists instance, inst, tb. }
  split; [done|].
  intros fnames vb Hls Hin Hm Hvb. unfold branches_of in Hvb.
  rewrite service_branches_run, Hls in Hvb.
  destruct (for_eachM _ fnames ∅) as [tr r] eqn:E. cbn [snd] in Hvb. subst r.
  destruct (files_loop_ok_each W _ _ _ _ _ _ E Hin Hm) as [bs Hbs].
  destruct (files_loop_ok W _ _ _ _ _ E) as [_ Hk']. apply Hk'. right.
  exists filename, bs. repeat split; try done. by apply Hfile.
Qed.

Lemma has_key_find k items :
  has_key k items = true → ∃ kv, find (λ kv, is_str k kv.1) items = Some kv.
Proof.
  unfold has_key. induction items as [|kv items IH]; [done|]. simpl.
  destruct (is_str k kv.1); [by exists kv | done].
Qed.

(** X5: an instance record with a [branch] key follows the value of that
    key, with or without a [docker_image] key and whatever the file is
    called: a truthy, hashable value is added to the set by the turn of
    the instance, and is in the set of the file and of the service once
    they are resolved; a non-empty string [b] is there as the branch
    [b]. *)
Theorem branch_key_is_tracked
    (W : World) (soa_dir service filename instance : string)
    (items : list (pyval * pyval)) (v : pyval) (k : hkey) :
  getitem (PDict items) "branch" = Ok v →
  truthy v = true → hash_key v = Ok k →
  target_branch filename (PDict items) = Ok v ∧
  (∀ vb, add_instance filename vb (instance, PDict items) = Ok ({[k]} ∪ vb)) ∧
  (∀ config,
     read_service_information W (path_join (path_join soa_dir service) filename)
       = Ok config →
     config !! instance = Some (PDict items) →
     (∀ vb, (get_branches_from_marathon_file W (path_join soa_dir service) filename).2
            = Ok vb → k ∈ vb) ∧
     (∀ fnames vb,
        os_listdir W (path_join soa_dir service) = Ok fnames →
        filename ∈ fnames → str_in "marathon-" filename = true →
        branches_of W soa_dir service = Ok vb → k ∈ vb)) ∧
  (∀ b, v = PStr b → b ≠ "" ∧ k = KStr b).
Proof.
  intros Hv Ht Hk.
  assert (has_key "branch" items = true) as Hbr.
  { unfold getitem in Hv. unfold has_key.
    destruct (find (λ kv, is_str "branch" kv.1) items) as [kv|] eqn:E; [|done].
    apply existsb_exists. exists kv. apply find_some in E as [? ?].
    split; [done | done]. }
  assert (target_branch filename (PDict items) = Ok v) as Htb.
  { unfold target_branch. rewrite contains_dict, Hbr. done. }
  split; [done|]. split; [|split].
  - intros vb. unfold add_instance, set_add. cbn [snd]. rewrite Htb. cbn [rbind].
    by rewrite Ht, Hk.
  - intros config Hr Hi. by eapply contributing_instance.
  - intros b ->. simpl in Ht, Hk. injection Hk as <-. split; [|done].
    intros ->. done.
Qed.

Lemma branch_key_is_tracked_witness :
  getitem (PDict [(PStr "docker_image", PStr "img"); (PStr "branch", PStr "release")])
    "branch" = Ok (PStr "release") ∧
  truthy (PStr "release") = true ∧ hash_key (PStr "release") = Ok (KStr "release") ∧
  target_branch "marathon-devc.yaml"
    (PDict [(PStr "docker_image", PStr "img"); (PStr "branch", PStr "release")])
    = Ok (PStr "release").
Proof.
  split; [reflexivity|]. split; [reflexivity|]. split; [reflexivity|].
  apply (branch_key_is_tracked demo_world "/soa" "svc" "marathon-devc.yaml" "main"
           [(PStr "docker_image", PStr "img"); (PStr "branch", PStr "release")]
           (PStr "release") (KStr "release") eq_refl eq_refl eq_refl).
Defined.

Lemma filename_branch_raise filename e :
  filename_branch filename = Raise e → e = IndexError.
Proof.
  unfold filename_branch.
  destruct (index (split filename "-") 1) as [rest|e1] eqn:E1; cbn [rbind].
  - apply index_raise.
  - intros [= <-]. by apply index_raise in E1.
Qed.

Lemma contains_raise k v e : contains k v = Raise e → e = TypeError.
Proof. destruct v; simpl; congruence. Qed.

Lemma hash_key_raise v e : hash_key v = Raise e → e = TypeError.
Proof. destruct v; simpl; congruence. Qed.

Lemma target_branch_raise filename inst e :
  target_branch filename inst = Raise e → e = TypeError.
Proof.
  unfold target_branch.
  destruct (contains "branch" inst) as [[|]|e1] eqn:E1; cbn [rbind].
  - destruct inst as [| | | |xs|items]; simpl in *; try congruence.
    destruct (has_key_find "branch" items) as [kv Hkv]; [by injection E1|].
    unfold has_key in *. by rewrite Hkv.
  - destruct (contains "docker_image" inst) as [[|]|e2] eqn:E2; cbn [rbind negb].
    + done.
    + destruct (filename_branch filename) as [b|e'] eqn:Hfb; [done|].
      apply filename_branch_raise in Hfb as ->. done.
    + intros [= <-]. by apply contains_raise in E2.
  - intros [= <-]. by apply contains_raise in E1.
Qed.

(** Whether the turn of an instance raises does not depend on the set
    gathered so far, and what it raises is a [TypeError]. *)
Lemma add_instance_raise filename vb item e :
  add_instance filename vb item = Raise e →
  e = TypeError ∧ ∀ vb', add_instance filename vb' item = Raise TypeError.
Proof.
  unfold add_instance, set_add.
  destruct (target_branch filename item.2) as [tb|e'] eqn:Htb; cbn [rbind].
  - destruct (truthy tb); [|done].
    destruct (hash_key tb) as [k|e'] eqn:Hk; [done|]. cbn [rbind]. intros [= <-].
    by apply hash_key_raise in Hk as ->.
  - intros [= <-]. by apply target_branch_raise in Htb as ->.
Qed.

Lemma for_each_add_instance_raise filename items vb item vb0 e :
  item ∈ items → add_instance filename vb0 item = Raise e →
  for_each (add_instance filename) items vb = Raise TypeError.
Proof.
  intros Hin Hraise. apply add_instance_raise in Hraise as [_ Hraise].
  revert vb. induction items as [|item' items IH]; intros vb.
  - by apply elem_of_nil in Hin.
  - cbn [for_each]. apply elem_of_cons in Hin as [<-|Hin].
    + by rewrite Hraise.
    + destruct (add_instance filename vb item') as [vb1|e1] eqn:E; cbn [rbind].
      * by apply IH.
      * by apply add_instance_raise in E as [-> _].
Qed.

(** X6: an instance that is not a record but null, a boolean or a number
    (a YAML entry without a body loads as null), or whose [branch] is a
    non-empty sequence or mapping, makes the resolution of its file raise
    [TypeError], whatever the other instances hold; the exception is not
    handled, so the resolution of the service and the turn of the service
    end with it. *)
Theorem ill_typed_instance_aborts_resolution
    (W : World) (soa_dir service filename instance : string)
    (config : gmap string pyval) (inst : pyval) :
  read_service_information W (path_join (path_join soa_dir service) filename)
    = Ok config →
  config !! instance = Some inst →
  is_scalar inst = true ∨
    (∃ items v, inst = PDict items ∧ getitem (PDict items) "branch" = Ok v ∧
                truthy v = true ∧ hash_key v = Raise TypeError) →
  get_branches_from_marathon_file W (path_join soa_dir service) filename
    = ([ReadConfig (path_join (path_join soa_dir service) filename)], Raise TypeError) ∧
  (∀ l1 l2,
     os_listdir W (path_join soa_dir service) = Ok (l1 ++ filename :: l2)%list →
     str_in "marathon-" filename = true →
     is_ok (for_eachM (add_file W (path_join soa_dir service)) l1 ∅).2 = true →
     get_branches_for_service W soa_dir service
       = (read_events (path_join soa_dir service) (l1 ++ [filename]), Raise TypeError) ∧
     ∀ mygit m, (examine_service W soa_dir mygit m service).2 = Raise TypeError).
Proof.
  intros Hr Hi Hbad.
  assert (add_instance filename ∅ (instance, inst) = Raise TypeError) as Hraise.
  { unfold add_instance. cbn [snd]. destruct Hbad as [Hs|(items & v & -> & Hv & Ht & Hk)].
    - unfold target_branch. by destruct inst.
    - assert (has_key "branch" items = true) as Hbr.
      { unfold getitem in Hv. unfold has_key.
        destruct (find (λ kv, is_str "branch" kv.1) items) as [kv|] eqn:E; [|done].
        apply existsb_exists. exists kv. by apply find_some in E as [? ?]. }
      unfold target_branch, set_add. rewrite contains_dict, Hbr. cbn [rbind].
      rewrite Hv. cbn [rbind]. by rewrite Ht, Hk. }
  assert (get_branches_from_marathon_file W (path_join soa_dir service) filename
    = ([ReadConfig (path_join (path_join soa_dir service) filename)], Raise TypeError))
    as Hfile.
  { rewrite file_run, Hr. cbn [rbind]. f_equal.
    apply (for_each_add_instance_raise _ _ _ (instance, inst) ∅ TypeError); [|done].
    by apply elem_of_map_to_list. }
  split; [done|]. intros l1 l2 Hls Hm H1.
  assert (get_branches_for_service W soa_dir service
       = (read_events (path_join soa_dir service) (l1 ++ [filename]), Raise TypeError))
    as Hsvc.
  { rewrite service_branches_run, Hls. apply files_loop_raise; try done.
    by rewrite Hfile. }
  split; [done|]. intros mygit m. by rewrite examine_service_run, Hsvc.
Qed.

Lemma null_instance_read :
  read_service_information null_instance_world
    (path_join (path_join "/soa" "svc") "marathon-devc.yaml")
  = Ok (<["main" := PNone]> {["canary" := PDict [(PStr "branch", PStr "release")]]}).
Proof. reflexivity. Qed.

Lemma ill_typed_instance_aborts_resolution_witness :
  read_service_information null_instance_world
    (path_join (path_join "/soa" "svc") "marathon-devc.yaml")
    = Ok (<["main" := PNone]> {["canary" := PDict [(PStr "branch", PStr "release")]]}) ∧
  (<["main" := PNone]> {["canary" := PDict [(PStr "branch", PStr "release")]]}
     : gmap string pyval) !! "main" = Some PNone ∧
  is_scalar PNone = true ∧
  get_branches_from_marathon_file null_instance_world (path_join "/soa" "svc")
      "marathon-devc.yaml"
    = ([ReadConfig (path_join (path_join "/soa" "svc") "marathon-devc.yaml")],
       Raise TypeError).
Proof.
  assert ((<["main" := PNone]> {["canary" := PDict [(PStr "branch", PStr "release")]]}
     : gmap string pyval) !! "main" = Some PNone) as Hi by (vm_compute; reflexivity).
  split; [exact null_instance_read|]. split; [exact Hi|]. split; [reflexivity|].
  apply (ill_typed_instance_aborts_resolution null_instance_world "/soa" "svc"
           "marathon-devc.yaml" "main" _ PNone null_instance_read Hi
           (or_introl eq_refl)).
Defined.

(** Where a target branch comes from. *)
Lemma target_branch_origin filename inst tb :
  target_branch filename inst = Ok tb →
  tb = PNone ∨ (∃ b, filename_branch filename = Ok b ∧ tb = PStr b) ∨
  getitem inst "branch" = Ok tb.
Proof.
  unfold target_branch.
  destruct (contains "branch" inst) as [[|]|e1]; cbn [rbind]; [by right; right| |done].
  destruct (contains "docker_image" inst) as [[|]|e2]; cbn [rbind negb];
    [by intros [= <-]; left| |done].
  destruct (filename_branch filename) as [b|[]]; try done.
  - intros [= <-]. right; left. by exists b.
  - intros [= <-]. by left.
Qed.

(** X8: the set of a resolved file holds nothing but the token of the
    file name, when that is not empty, and the values of the [branch] keys
    of its instances: no other name is ever tracked. *)
Theorem file_branches_come_from_token_or_keys
    (W : World) (file_dir filename : string) (config : gmap string pyval)
    (vb : gset hkey) :
  read_service_information W (path_join file_dir filename) = Ok config →
  (get_branches_from_marathon_file W file_dir filename).2 = Ok vb →
  ∀ k, k ∈ vb →
    (∃ token, filename_branch filename = Ok token ∧ token ≠ "" ∧ k = KStr token) ∨
    (∃ instance inst v, config !! instance = Some inst ∧
       getitem inst "branch" = Ok v ∧ truthy v = true ∧ hash_key v = Ok k).
Proof.
  intros Hr Hvb k Hk.
  apply (file_branches W _ _ _ _ Hr Hvb) in Hk as (i & inst & tb & Hi & Htb & Ht & Hk).
  destruct (target_branch_origin _ _ _ Htb) as [->|[(b & Hb & ->)|Hv]]; [done| |].
  - left. exists b. simpl in Ht, Hk. injection Hk as <-. repeat split; try done.
    intros ->. done.
  - right. by exists i, inst, tb.
Qed.

Lemma demo_file_branches :
  (get_branches_from_marathon_file demo_world "/soa/svc" "marathon-devc.yaml").2
  = Ok {[KStr "release"; KStr "devc"]}.
Proof. vm_compute. reflexivity. Qed.

Lemma file_branches_come_from_token_or_keys_witness :
  read_service_information demo_world (path_join "/soa/svc" "marathon-devc.yaml")
    = Ok demo_config ∧
  (get_branches_from_marathon_file demo_world "/soa/svc" "marathon-devc.yaml").2
    = Ok {[KStr "release"; KStr "devc"]} ∧
  KStr "devc" ∈ ({[KStr "release"; KStr "devc"]} : gset hkey) ∧
  ((∃ token, filename_branch "marathon-devc.yaml" = Ok token ∧ token ≠ "" ∧
             KStr "devc" = KStr token) ∨
   (∃ instance inst v, demo_config !! instance = Some inst ∧
      getitem inst "branch" = Ok v ∧ truthy v = true ∧ hash_key v = Ok (KStr "devc"))).
Proof.
  assert (read_service_information demo_world (path_join "/soa/svc" "marathon-devc.yaml")
    = Ok demo_config) as Hr by (vm_compute; reflexivity).
  assert (KStr "devc" ∈ ({[KStr "release"; KStr "devc"]} : gset hkey)) as Hk
    by (apply elem_of_union; right; apply elem_of_singleton; reflexivity).
  split; [exact Hr|]. split; [exact demo_file_branches|]. split; [exact Hk|].
  exact (file_branches_come_from_token_or_keys demo_world "/soa/svc" "marathon-devc.yaml"
           demo_config _ Hr demo_file_branches (KStr "devc") Hk).
Defined.

(** ** The main loop, turn by turn *)

Section Turns.

Variable W : World.
Variables soa_dir mygit : string.

(** What a turn returns, from what it returns on the empty dictionary. *)
Lemma examine_service_result m service :
  (examine_service W soa_dir mygit m service).2
  = match (examine_service W soa_dir mygit ∅ service).2 with
    | Ok _ => Ok (replay (service_entries W soa_dir mygit service) m)
    | Raise e => Raise e
    end.
Proof.
  destruct (examine_service_inserts W soa_dir mygit m service)
    as [(e & Hb & Hr & _)|[(e & vb & Hb & Hne & Hrem & Hr & _)|(Hok & _ & Hr)]];
  destruct (examine_service_inserts W soa_dir mygit ∅ service)
    as [(e' & Hb' & Hr' & _)|[(e' & vb' & Hb' & Hne' & Hrem' & Hr' & _)|(Hok' & _ & Hr')]];
  rewrite Hr, Hr'; try done; try congruence.
  - rewrite Hb in Hok'. done.
  - rewrite examine_service_run in Hr'. unfold branches_of, remote_of in *.
    destruct (get_branches_for_service W soa_dir service) as [t1 r1]. cbn [snd] in *.
    subst r1. rewrite bool_decide_eq_false_2 in Hr' by done.
    destruct (get_remote_branches_for_service W mygit service) as [t2 r2].
    cbn [snd] in *. by subst r2.
  - rewrite Hb' in Hok. done.
  - rewrite examine_service_run in Hr. unfold branches_of, remote_of in *.
    destruct (get_branches_for_service W soa_dir service) as [t1 r1]. cbn [snd] in *.
    subst r1. rewrite bool_decide_eq_false_2 in Hr by done.
    destruct (get_remote_branches_for_service W mygit service) as [t2 r2].
    cbn [snd] in *. by subst r2.
Qed.

Lemma examine_service_turn m service :
  examine_service W soa_dir mygit m service
  = (turn_trace W soa_dir mygit service,
     match (examine_service W soa_dir mygit ∅ service).2 with
     | Ok _ => Ok (replay (service_entries W soa_dir mygit service) m)
     | Raise e => Raise e
     end).
Proof.
  rewrite <- examine_service_result. unfold turn_trace.
  rewrite (examine_service_trace W soa_dir mygit ∅ m service).
  by destruct (examine_service W soa_dir mygit m service).
Qed.

(** When every turn completes, so does the loop. *)
Lemma loop_all_ok services m :
  Forall (λ s, turn_ok W soa_dir mygit s = true) services →
  for_eachM (examine_service W soa_dir mygit) services m
  = (concat (map (turn_trace W soa_dir mygit) services),
     Ok (replay (concat (map (service_entries W soa_dir mygit) services)) m)).
Proof.
  intros Hall. revert m. induction Hall as [|s services Hs _ IH]; intros m; [done|].
  cbn [for_eachM map concat]. rewrite examine_service_turn. unfold turn_ok in Hs.
  destruct (examine_service W soa_dir mygit ∅ s).2 as [m0|e]; [|done].
  rewrite bind_ok, IH. cbn [fst snd]. by rewrite replay_app.
Qed.

(** The first turn that raises ends the loop. *)
Lemma loop_first_raise before service after m e :
  Forall (λ s, turn_ok W soa_dir mygit s = true) before →
  (examine_service W soa_dir mygit ∅ service).2 = Raise e →
  for_eachM (examine_service W soa_dir mygit) (before ++ service :: after)%list m
  = ((concat (map (turn_trace W soa_dir mygit) before)
        ++ turn_trace W soa_dir mygit service)%list, Raise e).
Proof.
  intros Hbefore Hs.
  apply (for_eachM_raise _ _ _ _ _ _ _ _ _ (loop_all_ok before m Hbefore)).
  by rewrite examine_service_turn, Hs.
Qed.

(** A loop that completes ran turns that complete. *)
Lemma loop_ok_turns services m t m' :
  for_eachM (examine_service W soa_dir mygit) services m = (t, Ok m') →
  Forall (λ s, turn_ok W soa_dir mygit s = true) services.
Proof.
  intros Hloop. apply Forall_forall. intros s Hin.
  destruct (for_eachM_ok_inv _ _ s _ _ _ Hloop Hin)
    as (l1 & l2 & s1 & s2 & t1 & tx & t2 & _ & _ & _ & Hx & _).
  rewrite examine_service_turn in Hx. unfold turn_ok.
  by destruct (examine_service W soa_dir mygit ∅ s).2.
Qed.

(** X9: the main loop is its turns one after another.  The events and
    the outcome of the turn of a service do not depend on the dictionary
    gathered so far; when every turn completes the loop returns the replay
    of the entries of all services on the trace of all turns; otherwise it
    ends with the exception of the first service, in listing order, whose
    turn raises, and no later service is examined. *)
Theorem main_loop_runs_turns_until_first_raise
    (services : list string) (m : gmap string string) :
  (∀ service m',
     (examine_service W soa_dir mygit m' service).1
       = (examine_service W soa_dir mygit m service).1 ∧
     is_ok (examine_service W soa_dir mygit m' service).2
       = is_ok (examine_service W soa_dir mygit m service).2) ∧
  (Forall (λ s, turn_ok W soa_dir mygit s = true) services →
   for_eachM (examine_service W soa_dir mygit) services m
   = (concat (map (turn_trace W soa_dir mygit) services),
      Ok (replay (concat (map (service_entries W soa_dir mygit) services)) m))) ∧
  (∀ before service after e,
     services = (before ++ service :: after)%list →
     Forall (λ s, turn_ok W soa_dir mygit s = true) before →
     (examine_service W soa_dir mygit ∅ service).2 = Raise e →
     for_eachM (examine_service W soa_dir mygit) services m
     = ((concat (map (turn_trace W soa_dir mygit) before)
           ++ turn_trace W soa_dir mygit service)%list, Raise e)) ∧
  (is_ok (for_eachM (examine_service W soa_dir mygit) services m).2 = true ↔
   Forall (λ s, turn_ok W soa_dir mygit s = true) services).
Proof.
  split; [|split; [|split]].
  - intros service m'.
    rewrite (examine_service_turn m' service), (examine_service_turn m service).
    cbn [fst snd].
    split; [done|]. by destruct (examine_service W soa_dir mygit ∅ service).2.
  - apply loop_all_ok.
  - intros before service after e -> Hbefore Hs. by apply loop_first_raise.
  - split.
    + destruct (for_eachM _ services m) as [t [m'|e]] eqn:E; [|done].
      intros _. by eapply loop_ok_turns.
    + intros Hall. by rewrite loop_all_ok.
Qed.

End Turns.

Lemma main_loop_runs_turns_until_first_raise_witness :
  Forall (λ s, turn_ok demo_world "/soa" "/tmp/tmpq1w2e3" s = true)
    ["svc"; "pinned"; "ghost"] ∧
  for_eachM (examine_service demo_world "/soa" "/tmp/tmpq1w2e3")
    ["svc"; "pinned"; "ghost"] ∅
  = (concat (map (turn_trace demo_world "/soa" "/tmp/tmpq1w2e3") ["svc"; "pinned"; "ghost"]),
     Ok (replay (concat (map (service_entries demo_world "/soa" "/tmp/tmpq1w2e3")
                           ["svc"; "pinned"; "ghost"])) ∅)).
Proof.
  assert (Forall (λ s, turn_ok demo_world "/soa" "/tmp/tmpq1w2e3" s = true)
    ["svc"; "pinned"; "ghost"]) as Hall.
  { repeat constructor; vm_compute; reflexivity. }
  split; [exact Hall|].
  exact (proj1 (proj2 (main_loop_runs_turns_until_first_raise demo_world "/soa"
                         "/tmp/tmpq1w2e3" ["svc"; "pinned"; "ghost"] ∅)) Hall).
Defined.

(** ** The order of the service directories *)

Lemma concat_map_perm {A B} (f : A → list B) (l1 l2 : list A) :
  l1 ≡ₚ l2 → concat (map f l1) ≡ₚ concat (map f l2).
Proof.
  induction 1 as [|x l1 l2 _ IH|x y l|l1 l2 l3 _ IH1 _ IH2]; simpl.
  - done.
  - by rewrite IH.
  - rewrite !app_assoc. by rewrite (Permutation_app_comm (f y) (f x)).
  - by rewrite IH1.
Qed.

(** Entries that agree under each key can be replayed in any order. *)
Lemma replay_perm kvs1 kvs2 m :
  kvs1 ≡ₚ kvs2 → agreeing kvs1 → replay kvs1 m = replay kvs2 m.
Proof.
  intros Hp Hagree. apply map_eq. intros k. rewrite !lookup_replay.
  assert (writes_to k kvs1 ≡ₚ writes_to k kvs2) as Hw.
  { unfold writes_to. by rewrite Hp. }
  destruct (last (writes_to k kvs1)) as [kv1|] eqn:E1.
  - apply last_Some_elem_of in E1 as Hin1.
    assert (kv1 ∈ writes_to k kvs2) as Hin2 by (by rewrite <- Hw).
    destruct (last (writes_to k kvs2)) as [kv2|] eqn:E2.
    + apply last_Some_elem_of in E2 as Hin2'.
      assert (kv2 ∈ writes_to k kvs1) as Hin1' by (by rewrite Hw).
      apply list_elem_of_filter in Hin1 as [Hk1 Hin1].
      apply list_elem_of_filter in Hin1' as [Hk2 Hin1'].
      f_equal. apply Hagree; [done | done | congruence].
    + apply last_None in E2. rewrite E2 in Hin2. by apply elem_of_nil in Hin2.
  - apply last_None in E1. rewrite E1 in Hw. symmetry in Hw.
    apply Permutation_nil_r in Hw. by rewrite Hw.
Qed.

(** X10: the order in which the service directories are listed does not
    matter to a run that completes, as long as no two entries under one
    key differ: a run over the same directories in another order
    completes too, with the same events in another order and the same
    mapping. *)
Theorem service_order_does_not_matter
    (W : World) (soa_dir tmp_dir : string) (services services' : list string) :
  services ≡ₚ services' →
  agreeing (concat (map (service_entries W soa_dir tmp_dir) services)) →
  (∀ m t m1,
     for_eachM (examine_service W soa_dir tmp_dir) services m = (t, Ok m1) →
     ∃ t', for_eachM (examine_service W soa_dir tmp_dir) services' m = (t', Ok m1) ∧
           t' ≡ₚ t) ∧
  (mkdtemp W = Ok tmp_dir →
   get_service_directories W soa_dir = Ok services →
   ∀ tr m, get_branch_mappings W soa_dir = (tr, Ok m) →
     (get_branch_mappings (with_service_directories W services') soa_dir).2 = Ok m).
Proof.
  intros Hp Hagree.
  assert (∀ m t m1,
     for_eachM (examine_service W soa_dir tmp_dir) services m = (t, Ok m1) →
     ∃ t', for_eachM (examine_service W soa_dir tmp_dir) services' m = (t', Ok m1) ∧
           t' ≡ₚ t) as Hloop.
  { intros m t m1 H. pose proof (loop_ok_turns W _ _ _ _ _ _ H) as Hall.
    rewrite (loop_all_ok W _ _ _ _ Hall) in H. injection H as <- <-.
    assert (Forall (λ s, turn_ok W soa_dir tmp_dir s = true) services') as Hall'
      by (by rewrite <- Hp).
    rewrite (loop_all_ok W _ _ _ _ Hall'). eexists. split.
    - f_equal. f_equal. symmetry. apply replay_perm; [|done]. by apply concat_map_perm.
    - symmetry. by apply concat_map_perm. }
  split; [done|]. intros Htmp Hdirs tr m Hrun.
  rewrite run_shape, Htmp, Hdirs in Hrun. rewrite run_shape.
  cbn [mkdtemp with_service_directories os_rmdir]. rewrite Htmp.
  change (get_service_directories (with_service_directories W services') soa_dir)
    with (Ok services' : result (list string)).
  cbn iota. rewrite main_loop_same_collaborators.
  destruct (for_eachM _ services ∅) as [t [m1|e]] eqn:E; [|done].
  destruct (Hloop _ _ _ E) as (t' & -> & _).
  destruct (os_rmdir W tmp_dir) as [[]|[]]; by simplify_eq.
Qed.

Lemma demo_entries :
  concat (map (service_entries demo_world "/soa" "/tmp/tmpq1w2e3")
            ["svc"; "pinned"; "ghost"])
  = [("svc:release", "svc:abcdef"); ("svc:devc", "svc:012345")].
Proof. vm_compute. reflexivity. Qed.

Lemma demo_entries_agree :
  agreeing (concat (map (service_entries demo_world "/soa" "/tmp/tmpq1w2e3")
                      ["svc"; "pinned"; "ghost"])).
Proof.
  rewrite demo_entries. intros kv kv' Hkv Hkv' Hk.
  apply elem_of_cons in Hkv as [->|Hkv]; apply elem_of_cons in Hkv' as [->|Hkv'];
    try done.
  - apply list_elem_of_singleton in Hkv' as ->. simpl in Hk. discriminate.
  - apply list_elem_of_singleton in Hkv as ->. simpl in Hk. discriminate.
  - apply list_elem_of_singleton in Hkv as ->.
    by apply list_elem_of_singleton in Hkv' as ->.
Qed.

Lemma demo_dirs :
  get_service_directories demo_world "/soa" = Ok ["svc"; "pinned"; "ghost"].
Proof. vm_compute. reflexivity. Qed.

Lemma service_order_does_not_matter_witness :
  ["svc"; "pinned"; "ghost"] ≡ₚ ["ghost"; "svc"; "pinned"] ∧
  agreeing (concat (map (service_entries demo_world "/soa" "/tmp/tmpq1w2e3")
                      ["svc"; "pinned"; "ghost"])) ∧
  mkdtemp demo_world = Ok "/tmp/tmpq1w2e3" ∧
  get_service_directories demo_world "/soa" = Ok ["svc"; "pinned"; "ghost"] ∧
  get_branch_mappings demo_world "/soa" = (demo_trace, Ok demo_mapping) ∧
  (get_branch_mappings (with_service_directories demo_world ["ghost"; "svc"; "pinned"])
     "/soa").2 = Ok demo_mapping.
Proof.
  assert (["svc"; "pinned"; "ghost"] ≡ₚ ["ghost"; "svc"; "pinned"]) as Hp.
  { change ["svc"; "pinned"; "ghost"] with (["svc"; "pinned"] ++ ["ghost"])%list.
    apply Permutation_app_comm. }
  destruct (service_order_does_not_matter demo_world "/soa" "/tmp/tmpq1w2e3" _ _
              Hp demo_entries_agree) as [_ H].
  split; [exact Hp|]. split; [exact demo_entries_agree|]. split; [reflexivity|].
  split; [exact demo_dirs|]. split; [exact demo_run|].
  exact (H eq_refl demo_dirs _ _ demo_run).
Defined.

(** ** What a run touches *)

Lemma for_eachM_event {A S} (body : S → A → M S) (l : list A) (s : S) (ev : event) :
  ev ∈ (for_eachM body l s).1 → ∃ x s', x ∈ l ∧ ev ∈ (body s' x).1.
Proof.
  revert s. induction l as [|x l IH]; intros s Hin; [by apply elem_of_nil in Hin|].
  cbn [for_eachM] in Hin.
  destruct (body s x) as [t [s1|e]] eqn:E.
  - rewrite bind_ok in Hin. cbn [fst] in Hin. apply elem_of_app in Hin as [Hin|Hin].
    + exists x, s. split; [by left | by rewrite E].
    + destruct (IH _ Hin) as (y & s' & ? & ?). exists y, s'. split; [by right | done].
  - cbn [bind fst] in Hin. exists x, s. split; [by left | by rewrite E].
Qed.

(** The events of a turn, kind by kind. *)
Lemma turn_events W soa_dir mygit m service ev :
  ev ∈ (examine_service W soa_dir mygit m service).1 →
  ev = examining_event service ∨ ev = no_branches_event service ∨
  (∃ fnames f, os_listdir W (path_join soa_dir service) = Ok fnames ∧ f ∈ fnames ∧
     str_in "marathon-" f = true ∧
     ev = ReadConfig (path_join (path_join soa_dir service) f)) ∨
  ((∃ vb, branches_of W soa_dir service = Ok vb ∧ vb ≠ ∅) ∧
   (ev = LsRemote (get_git_url service) ∨
    (ev = warning_event service ∧
     ls_remote W mygit "-h" (get_git_url service) = Raise GitCommandError) ∨
    (∃ hb, ev = mapping_event service hb))).
Proof.
  rewrite examine_service_run. unfold branches_of.
  assert (∀ t1, t1 = (get_branches_for_service W soa_dir service).1 → ev ∈ t1 →
    ∃ fnames f, os_listdir W (path_join soa_dir service) = Ok fnames ∧ f ∈ fnames ∧
     str_in "marathon-" f = true ∧
     ev = ReadConfig (path_join (path_join soa_dir service) f)) as Hreads.
  { intros t1 -> Hin. rewrite service_branches_run in Hin.
    destruct (os_listdir W (path_join soa_dir service)) as [fnames|e] eqn:Hls;
      [|by apply elem_of_nil in Hin].
    destruct (files_loop_trace W (path_join soa_dir service) fnames ∅) as [rest Hrest].
    assert (ev ∈ read_events (path_join soa_dir service) fnames) as Hev.
    { rewrite Hrest. apply elem_of_app. by left. }
    unfold read_events in Hev. apply list_elem_of_fmap in Hev as (f & -> & Hf).
    apply list_elem_of_filter in Hf as [? ?]. by exists fnames, f. }
  assert (∀ t2, t2 = (get_remote_branches_for_service W mygit service).1 → ev ∈ t2 →
    ev = LsRemote (get_git_url service) ∨
    (ev = warning_event service ∧
     ls_remote W mygit "-h" (get_git_url service) = Raise GitCommandError)) as Hrem.
  { intros t2 -> Hin. rewrite remote_run in Hin.
    destruct (ls_remote W mygit "-h" (get_git_url service)) as [out|[]]; cbn [fst] in Hin;
      try (apply list_elem_of_singleton in Hin; by left).
    apply elem_of_cons in Hin as [->|Hin]; [by left|].
    apply list_elem_of_singleton in Hin. by right. }
  destruct (get_branches_for_service W soa_dir service) as [t1 [vb|e]];
    cbn [fst snd] in *.
  - case_bool_decide as Hvb.
    + intros Hin. apply elem_of_app in Hin as [Hin|Hin].
      * apply elem_of_cons in Hin as [->|Hin]; [by left|].
        right; right; left. by apply (Hreads t1).
      * apply list_elem_of_singleton in Hin. right; by left.
    + destruct (get_remote_branches_for_service W mygit service) as [t2 [refs|e]];
        cbn [fst snd] in *; intros Hin.
      * apply elem_of_app in Hin as [Hin|Hin].
        -- apply elem_of_cons in Hin as [->|Hin]; [by left|].
           right; right; left. by apply (Hreads t1).
        -- right; right; right. split; [by exists vb|].
           apply elem_of_app in Hin as [Hin|Hin].
           ++ destruct (Hrem t2 eq_refl Hin) as [?|?]; [by left | right; by left].
           ++ apply list_elem_of_fmap in Hin as (hb & -> & _). right; right. by exists hb.
      * apply elem_of_app in Hin as [Hin|Hin].
        -- apply elem_of_cons in Hin as [->|Hin]; [by left|].
           right; right; left. by apply (Hreads t1).
        -- right; right; right. split; [by exists vb|].
           destruct (Hrem t2 eq_refl Hin) as [?|?]; [by left | right; by left].
  - intros Hin. apply elem_of_cons in Hin as [->|Hin]; [by left|].
    right; right; left. by apply (Hreads t1).
Qed.

(** X11: a run, completed or not, touches nothing but the listed service
    directories: every configuration file it reads is a file, named with
    [marathon-], of the directory of a listed service; every remote it
    queries is the repository of a listed service whose set of branches
    is not empty; and every warning it logs names a listed service whose
    query raised a command error. *)
Theorem run_touches_only_listed_services
    (W : World) (soa_dir tmp_dir : string) (services : list string) :
  mkdtemp W = Ok tmp_dir →
  get_service_directories W soa_dir = Ok services →
  (∀ p, ReadConfig p ∈ (get_branch_mappings W soa_dir).1 →
     ∃ service fnames f, service ∈ services ∧
       os_listdir W (path_join soa_dir service) = Ok fnames ∧ f ∈ fnames ∧
       str_in "marathon-" f = true ∧ p = path_join (path_join soa_dir service) f) ∧
  (∀ url, LsRemote url ∈ (get_branch_mappings W soa_dir).1 →
     ∃ service vb, service ∈ services ∧ url = get_git_url service ∧
       branches_of W soa_dir service = Ok vb ∧ vb ≠ ∅) ∧
  (∀ fmt args, Log WARNING fmt args ∈ (get_branch_mappings W soa_dir).1 →
     ∃ service, service ∈ services ∧ Log WARNING fmt args = warning_event service ∧
       ls_remote W tmp_dir "-h" (get_git_url service) = Raise GitCommandError).
Proof.
  intros Htmp Hdirs.
  assert (∀ ev, ev ∈ (get_branch_mappings W soa_dir).1 →
    ev = rmdir_event tmp_dir ∨
    ∃ service m, service ∈ services ∧
      ev ∈ (examine_service W soa_dir tmp_dir m service).1) as Hev.
  { intros ev. rewrite run_shape, Htmp, Hdirs.
    pose proof (for_eachM_event (examine_service W soa_dir tmp_dir) services ∅ ev) as Hloop.
    destruct (for_eachM _ services ∅) as [t [m|e]]; cbn [fst] in *.
    - intros Hin. assert (ev ∈ t ∨ ev = rmdir_event tmp_dir) as [Hin'| ->].
      { destruct (os_rmdir W tmp_dir) as [[]|[]]; cbn [fst] in Hin; try (by left).
        apply elem_of_app in Hin as [?|Hin]; [by left|].
        apply list_elem_of_singleton in Hin. by right. }
      + right. destruct (Hloop Hin') as (s & m' & ? & ?). by exists s, m'.
      + by left.
    - intros Hin. right. destruct (Hloop Hin) as (s & m' & ? & ?). by exists s, m'. }
  split; [|split].
  - intros p Hin. destruct (Hev _ Hin) as [?|(s & m & Hs & Hin')]; [done|].
    destruct (turn_events _ _ _ _ _ _ Hin') as [H|[H|[H|[_ H]]]]; [done|done| |].
    + destruct H as (fnames & f & ? & ? & ? & Heq). injection Heq as ->.
      by exists s, fnames, f.
    + by destruct H as [H|[[H _]|[hb H]]].
  - intros url Hin. destruct (Hev _ Hin) as [?|(s & m & Hs & Hin')]; [done|].
    destruct (turn_events _ _ _ _ _ _ Hin') as [H|[H|[H|[Hvb H]]]]; [done|done| |].
    + by destruct H as (fnames & f & ? & ? & ? & Heq).
    + destruct Hvb as (vb & ? & ?).
      destruct H as [H|[[H _]|[hb H]]]; [|done|done].
      injection H as ->. by exists s, vb.
  - intros fmt args Hin. destruct (Hev _ Hin) as [?|(s & m & Hs & Hin')]; [done|].
    destruct (turn_events _ _ _ _ _ _ Hin') as [H|[H|[H|[_ H]]]]; [done|done| |].
    + by destruct H as (fnames & f & ? & ? & ? & Heq).
    + destruct H as [H|[[H ?]|[hb H]]]; [done| |done].
      by exists s.
Qed.

Lemma run_touches_only_listed_services_witness :
  mkdtemp demo_world = Ok "/tmp/tmpq1w2e3" ∧
  get_service_directories demo_world "/soa" = Ok ["svc"; "pinned"; "ghost"] ∧
  (∀ url, LsRemote url ∈ (get_branch_mappings demo_world "/soa").1 →
     ∃ service vb, service ∈ ["svc"; "pinned"; "ghost"] ∧ url = get_git_url service ∧
       branches_of demo_world "/soa" service = Ok vb ∧ vb ≠ ∅).
Proof.
  split; [reflexivity|]. split; [exact demo_dirs|].
  apply (run_touches_only_listed_services demo_world "/soa" "/tmp/tmpq1w2e3"
           ["svc"; "pinned"; "ghost"] eq_refl demo_dirs).
Defined.

(** ** The short commit *)

Lemma slice_to_prefix n s : ∃ rest, s = slice_to n s +:+ rest.
Proof.
  revert s. induction n as [|n IH]; intros s; [by exists s|].
  destruct s as [|c s]; [by exists ""|].
  destruct (IH s) as [rest Hrest]. exists rest. cbn [slice_to].
  by rewrite append_cons, <- Hrest.
Qed.

Lemma slice_to_length n s : String.length (slice_to n s) = Nat.min n (String.length s).
Proof.
  revert s. induction n as [|n IH]; intros s; [done|].
  destruct s as [|c s]; [done|]. simpl. by rewrite IH.
Qed.

Lemma slice_to_short n s : (String.length s ≤ n)%nat → slice_to n s = s.
Proof.
  revert s. induction n as [|n IH]; intros [|c s] H; simpl in *; try done; try lia.
  rewrite IH; [done | lia].
Qed.

(** X12: the image of a head keeps the first six characters of the commit
    as they are: the value inserted is the service name, a colon, and a
    prefix of the commit that is six characters long, or the whole commit
    when that is shorter; a short or empty commit raises nothing. *)
Theorem docker_image_is_short_commit
    (service : string) (m : gmap string string) (hb : string * string) :
  ∃ short rest,
    (add_mapping service m hb).2
      = Ok (<[service +:+ ":" +:+ hb.2 := service +:+ ":" +:+ short]> m) ∧
    hb.1 = short +:+ rest ∧
    String.length short = Nat.min 6 (String.length hb.1) ∧
    ((String.length hb.1 ≤ 6)%nat → short = hb.1).
Proof.
  destruct (slice_to_prefix 6 hb.1) as [rest Hrest].
  exists (slice_to 6 hb.1), rest. split; [done|]. split; [done|].
  split; [apply slice_to_length | apply slice_to_short].
Qed.

(** ** The entry point *)

Lemma bindA_ok {A B} (t : list action) (a : A) (k : A → MA B) :
  bindA (t, Ok a) k = ((t ++ (k a).1)%list, (k a).2).
Proof. simpl. by destruct (k a). Qed.

(** X13: [main] writes the file only after the mapping is built, and
    writes what was built.  When the builder raises, [main] ends with that
    exception having set the level and run the script, and never opens the
    file, so an earlier [deployments.json] stays as it was; when the
    builder returns a mapping, [main] opens [deployments.json] under the
    absolute root, dumps that mapping and closes the file, in this order
    and after every event of the script.  The level set is INFO with the
    verbose flag and WARNING without. *)
Theorem main_writes_only_a_built_mapping
    (H : Host) (args : Args) (root : string) :
  os_path_abspath H (soa_dir args) = Ok root →
  (∀ t e, get_branch_mappings (world H) root = (t, Raise e) →
     main H args
       = (SetLevel (if verbose args then INFO else WARNING) :: map Script t, Raise e) ∧
     Forall (λ a, is_file_action a = false) (main H args).1) ∧
  (∀ t m, get_branch_mappings (world H) root = (t, Ok m) →
     ∃ r, main H args
       = ((SetLevel (if verbose args then INFO else WARNING) :: map Script t)
            ++ Open (path_join root TARGET_FILE) ::
               match open_for_writing H (path_join root TARGET_FILE) with
               | Ok _ => [Dump m (path_join root TARGET_FILE);
                          Close (path_join root TARGET_FILE)]
               | Raise _ => []
               end, r)%list ∧
       r = match open_for_writing H (path_join root TARGET_FILE) with
           | Ok _ => json_dump H m (path_join root TARGET_FILE)
           | Raise e => Raise e
           end).
Proof.
  intros Hroot.
  assert (∀ r : MA unit,
    main H args
    = bindA (if verbose args then act (SetLevel INFO) else act (SetLevel WARNING)) (λ _,
      bindA (script (get_branch_mappings (world H) root)) (λ mappings,
      with_open H (path_join root TARGET_FILE)
        (bindA (act (Dump mappings (path_join root TARGET_FILE))) (λ _,
         liftA (json_dump H mappings (path_join root TARGET_FILE))))))) as Hmain.
  { intros _. unfold main. rewrite Hroot. unfold liftA at 1. rewrite bindA_ok.
    cbn [fst snd app]. by destruct (bindA _ _). }
  rewrite (Hmain ([], Ok ())). clear Hmain.
  assert (∀ k : unit → MA unit,
    bindA (if verbose args then act (SetLevel INFO) else act (SetLevel WARNING)) k
    = (SetLevel (if verbose args then INFO else WARNING) :: (k ()).1, (k ()).2)) as Hlevel.
  { intros k. destruct (verbose args); unfold act; by rewrite bindA_ok. }
  rewrite Hlevel. unfold script. split.
  - intros t e Hrun. rewrite Hrun. cbn [bindA fst snd]. split; [done|].
    constructor; [done|]. apply Forall_forall.
    by intros a (e' & -> & _)%list_elem_of_fmap.
  - intros t m Hrun. rewrite Hrun. cbn [fst snd]. rewrite bindA_ok.
    unfold with_open, act, liftA. rewrite bindA_ok. cbn [fst snd].
    destruct (open_for_writing H (path_join root TARGET_FILE)) as [[]|e].
    + rewrite !bindA_ok. cbn [fst snd app]. eexists. split; reflexivity.
    + cbn [bindA fst snd app]. eexists. split; [|reflexivity]. done.
Qed.

Lemma bare_remote_run :
  get_branch_mappings bare_remote_world "/soa"
  = ([examining_event "fresh"; ReadConfig "/soa/fresh/marathon-devc.yaml";
      LsRemote "git@git.yelpcorp.com:services/fresh.git"], Raise IndexError).
Proof. vm_compute. reflexivity. Qed.

Lemma main_writes_only_a_built_mapping_witness :
  os_path_abspath bare_remote_host (soa_dir {| soa_dir := "soa"; verbose := false |})
    = Ok "/soa" ∧
  main bare_remote_host {| soa_dir := "soa"; verbose := false |}
    = (SetLevel WARNING ::
       map Script [examining_event "fresh"; ReadConfig "/soa/fresh/marathon-devc.yaml";
                   LsRemote "git@git.yelpcorp.com:services/fresh.git"],
       Raise IndexError) ∧
  ∃ r, main demo_host {| soa_dir := "soa"; verbose := true |}
       = ((SetLevel INFO :: map Script demo_trace)
            ++ [Open "/soa/deployments.json"; Dump demo_mapping "/soa/deployments.json";
                Close "/soa/deployments.json"], r)%list ∧ r = Ok ().
Proof.
  split; [reflexivity|]. split.
  - exact (proj1 (proj1 (main_writes_only_a_built_mapping bare_remote_host
                           {| soa_dir := "soa"; verbose := false |} "/soa" eq_refl)
                    _ _ bare_remote_run)).
  - exact (proj2 (main_writes_only_a_built_mapping demo_host
                    {| soa_dir := "soa"; verbose := true |} "/soa" eq_refl)
             _ _ demo_run).
Defined.

(** ** Keys that cannot collide *)

(** A key tells its service and its branch apart when service names have
    no colon. *)
Lemma branch_alias_inj service1 service2 b1 b2 :
  str_in ":" service1 = false → str_in ":" service2 = false →
  service1 +:+ ":" +:+ b1 = service2 +:+ ":" +:+ b2 →
  service1 = service2 ∧ b1 = b2.
Proof.
  intros H1 H2 Hk.
  assert (service1 = service2) as <-.
  { rewrite <- (upto_absent ":" service1 b1 H1), <- (upto_absent ":" service2 b2 H2).
    rewrite !append_char in Hk. by rewrite Hk. }
  split; [done|]. apply (inj (String.app service1)) in Hk.
  by apply (inj (String.app ":")) in Hk.
Qed.

Lemma NoDup_snd_eq {A B} (l : list (A * B)) (x y : A * B) :
  NoDup l.*2 → x ∈ l → y ∈ l → x.2 = y.2 → x = y.
Proof.
  induction l as [|z l IH]; intros Hnd Hx Hy Heq; [by apply elem_of_nil in Hx|].
  rewrite fmap_cons in Hnd. apply NoDup_cons in Hnd as [Hz Hnd].
  apply elem_of_cons in Hx as [->|Hx]; apply elem_of_cons in Hy as [->|Hy].
  - done.
  - destruct Hz. rewrite Heq. apply list_elem_of_fmap. by exists y.
  - destruct Hz. rewrite <- Heq. apply list_elem_of_fmap. by exists x.
  - by apply IH.
Qed.

(** X14: when no service name contains a colon and no remote lists a
    head name twice, nothing is overwritten: in a completed run every head
    [(c, b)] of a listed service whose set contains [b] is found in the
    final mapping as ["svc:b" -> "svc:" ++ c[0:6]]. *)
Theorem tracked_heads_are_mapped_when_names_are_plain
    (W : World) (soa_dir tmp_dir : string) (services : list string)
    (tr : list event) (m : gmap string string) :
  get_branch_mappings W soa_dir = (tr, Ok m) →
  mkdtemp W = Ok tmp_dir →
  get_service_directories W soa_dir = Ok services →
  Forall (λ s, str_in ":" s = false) services →
  (∀ s refs, s ∈ services → remote_of W tmp_dir s = Ok refs → NoDup refs.*2) →
  ∀ service vb refs c b,
    service ∈ services →
    branches_of W soa_dir service = Ok vb → KStr b ∈ vb →
    remote_of W tmp_dir service = Ok refs → (c, b) ∈ refs →
    m !! (service +:+ ":" +:+ b) = Some (service +:+ ":" +:+ slice_to 6 c).
Proof.
  intros Hrun Htmp Hdirs Hcolon Hnames service vb refs c b Hs Hvb Hb Hrefs Hin.
  destruct (run_ok_inv W _ _ _ Hrun) as (tmp' & services' & t & Htmp' & Hdirs' & Hloop & Hins).
  rewrite Htmp in Htmp'. injection Htmp' as <-.
  rewrite Hdirs in Hdirs'. injection Hdirs' as <-.
  destruct (loop_ok W _ _ _ _ _ _ Hloop) as [Hi ->].
  assert ((service +:+ ":" +:+ b, service +:+ ":" +:+ slice_to 6 c) ∈ inserts_of t) as Hk.
  { rewrite Hi. apply elem_of_concat.
    exists (service_entries W soa_dir tmp_dir service). split.
    - by apply (entry_in_service_entries W soa_dir tmp_dir service vb refs (c, b)).
    - apply list_elem_of_fmap. by exists service. }
  destruct (last_writes_to _ _ _ Hk) as (kv & Hlast & Hkv & Hkey).
  rewrite lookup_replay, Hlast. f_equal.
  rewrite Hi in Hkv. apply elem_of_concat in Hkv as (l & Hkv & Hl).
  apply list_elem_of_fmap in Hl as (s' & -> & Hs').
  apply service_entries_inv in Hkv as (vb' & refs' & hb & _ & Hrefs' & Hhb & _ & ->).
  simpl in Hkey. unfold branch_alias_of in Hkey.
  apply branch_alias_inj in Hkey as [-> Hbeq];
    try by apply (proj1 (Forall_forall _ _) Hcolon).
  rewrite Hrefs in Hrefs'. injection Hrefs' as <-.
  assert (hb = (c, b)) as -> by (by apply (NoDup_snd_eq refs); [eapply Hnames|..]).
  done.
Qed.

Lemma demo_names_once s refs :
  s ∈ ["svc"; "pinned"; "ghost"] → remote_of demo_world "/tmp/tmpq1w2e3" s = Ok refs →
  NoDup refs.*2.
Proof.
  intros Hs Hrefs.
  apply elem_of_cons in Hs as [->|Hs].
  { rewrite demo_remote in Hrefs. injection Hrefs as <-.
    repeat (apply NoDup_cons; split; [vm_compute; intros Hin; repeat
      (apply elem_of_cons in Hin as [Hin|Hin]; [discriminate|]);
      by apply elem_of_nil in Hin|]). apply NoDup_nil_2. }
  apply elem_of_cons in Hs as [->|Hs].
  { vm_compute in Hrefs. injection Hrefs as <-. apply NoDup_nil_2. }
  apply list_elem_of_singleton in Hs as ->.
  vm_compute in Hrefs. injection Hrefs as <-. apply NoDup_nil_2.
Qed.

Lemma tracked_heads_are_mapped_when_names_are_plain_witness :
  get_branch_mappings demo_world "/soa" = (demo_trace, Ok demo_mapping) ∧
  mkdtemp demo_world = Ok "/tmp/tmpq1w2e3" ∧
  get_service_directories demo_world "/soa" = Ok ["svc"; "pinned"; "ghost"] ∧
  Forall (λ s, str_in ":" s = false) ["svc"; "pinned"; "ghost"] ∧
  "svc" ∈ ["svc"; "pinned"; "ghost"] ∧
  branches_of demo_world "/soa" "svc" = Ok {[KStr "release"; KStr "devc"]} ∧
  KStr "devc" ∈ ({[KStr "release"; KStr "devc"]} : gset hkey) ∧
  remote_of demo_world "/tmp/tmpq1w2e3" "svc" = Ok demo_heads ∧
  ("0123456789abcdef", "devc") ∈ demo_heads ∧
  demo_mapping !! ("svc" +:+ ":" +:+ "devc")
    = Some ("svc" +:+ ":" +:+ slice_to 6 "0123456789abcdef").
Proof.
  assert (Forall (λ s, str_in ":" s = false) ["svc"; "pinned"; "ghost"]) as Hcolon
    by (repeat constructor).
  assert ("svc" ∈ ["svc"; "pinned"; "ghost"]) as Hs by left.
  assert (KStr "devc" ∈ ({[KStr "release"; KStr "devc"]} : gset hkey)) as Hb
    by (apply elem_of_union; right; apply elem_of_singleton; reflexivity).
  assert (("0123456789abcdef", "devc") ∈ demo_heads) as Hin by (right; left).
  split; [exact demo_run|]. split; [reflexivity|]. split; [exact demo_dirs|].
  split; [exact Hcolon|]. split; [exact Hs|]. split; [exact demo_branches|].
  split; [exact Hb|]. split; [exact demo_remote|]. split; [exact Hin|].
  exact (tracked_heads_are_mapped_when_names_are_plain demo_world "/soa" "/tmp/tmpq1w2e3"
           _ _ _ demo_run eq_refl demo_dirs Hcolon demo_names_once
           "svc" _ _ "0123456789abcdef" "devc" Hs demo_branches Hb demo_remote Hin).
Defined.
